(** * asmr-downloader: the failed-download ledger and its retry pass

    A shallow embedding of package [utils] (the download closures, the
    ledger file [failed-download.txt], [FixBrokenDownloadFile] and
    [CheckIfNeedFixBrokenDownloadFile]) and of [log.DiscordWebhook.Send].

    Go strings are byte strings and are modelled by [string]; a Go [error]
    is [option string] ([None] is [nil], [Some msg] carries [err.Error()]);
    a nil slice and an empty slice are both [[]] (the code only takes
    [len] of them and appends).  The operating system is an explicit
    [World] threaded through a small state monad with panics; what the
    outside decides (the network, permissions, the clock) is read from an
    environment [Env].

    Files are regular files named by their path string; reading a file
    that is there does not fail; a file handle stays on its file.  The
    log and the webhook are an output trace. *)

From Stdlib Require Import ZArith Lia Ascii String.
From stdpp Require Import base tactics option list strings gmap pretty.

Local Open Scope string_scope.
Local Open Scope Z_scope.

(** ** Package [strings] *)

Module Strings.

(** [strings.Split(s, sep)] for a one-byte separator: [n] separators give
    [n + 1] fields, and the empty string gives one empty field. *)
Fixpoint Split (s : string) (sep : ascii) : list string :=
  match s with
  | EmptyString => [EmptyString]
  | String c s' =>
      if Ascii.eqb c sep then EmptyString :: Split s' sep
      else match Split s' sep with
           | f :: fs => String c f :: fs
           | [] => [String c EmptyString]
           end
  end.

(** Membership of a byte in a cutset. *)
Fixpoint inCutset (c : ascii) (cutset : string) : bool :=
  match cutset with
  | EmptyString => false
  | String d cutset' => Ascii.eqb c d || inCutset c cutset'
  end.

Fixpoint TrimLeft (s cutset : string) : string :=
  match s with
  | EmptyString => EmptyString
  | String c s' => if inCutset c cutset then TrimLeft s' cutset else s
  end.

Fixpoint TrimRight (s cutset : string) : string :=
  match s with
  | EmptyString => EmptyString
  | String c s' =>
      match TrimRight s' cutset with
      | EmptyString => if inCutset c cutset then EmptyString
                       else String c EmptyString
      | r => String c r
      end
  end.

(** [strings.Trim(s, cutset)]: leading and trailing bytes of the cutset
    are removed. *)
Definition Trim (s cutset : string) : string :=
  TrimRight (TrimLeft s cutset) cutset.

Fixpoint HasPrefix (s prefix : string) : bool :=
  match prefix, s with
  | EmptyString, _ => true
  | String p prefix', String c s' => Ascii.eqb c p && HasPrefix s' prefix'
  | String _ _, EmptyString => false
  end.

(** [strings.Contains(s, substr)]. *)
Fixpoint Contains (s substr : string) : bool :=
  HasPrefix s substr ||
  match s with
  | EmptyString => false
  | String _ s' => Contains s' substr
  end.

End Strings.

(** ** Package [bufio]: [Reader.ReadLine] *)

Module Bufio.

Definition LF : ascii := "010"%char.
Definition CR : ascii := "013"%char.

(** The size of the buffer of [bufio.NewReader]. *)
Definition defaultBufSize : nat := 4096.

(** What ReadLine returns for the bytes read up to a line feed: the line
    end, LF or CR LF, is dropped.  [rcur] holds the bytes before the line
    feed, last byte first. *)
Definition dropCR (rcur : list ascii) : list ascii :=
  match rcur with
  | c :: rest => if Ascii.eqb c CR then rest else rcur
  | [] => []
  end.

Definition ofRev (rcur : list ascii) : string :=
  string_of_list_ascii (rev rcur).

(** All the lines successive calls of ReadLine return until it reports
    io.EOF, for a reader over [s].  [rcur] is the part of the current line
    already in the buffer (last byte first) and [n] its length.  A line
    feed ends the line.  When [size] bytes without a line feed fill the
    buffer, ReadLine returns them as a line of their own (isPrefix, which
    the callers ignore); a trailing CR is put back and starts the next
    piece.  At the end of the input the bytes left, if any, are a last
    line. *)
Fixpoint readLinesFrom (size : nat) (s : string) (rcur : list ascii) (n : nat)
  : list string :=
  match s with
  | EmptyString =>
      match rcur with
      | [] => []
      | _ => [ofRev rcur]
      end
  | String c s' =>
      if Ascii.eqb c LF then ofRev (dropCR rcur) :: readLinesFrom size s' [] 0
      else if Nat.eqb (S n) size then
        if Ascii.eqb c CR
        then ofRev rcur :: readLinesFrom size s' [CR] 1
        else ofRev (c :: rcur) :: readLinesFrom size s' [] 0
      else readLinesFrom size s' (c :: rcur) (S n)
  end.

Definition ReadLines (s : string) : list string :=
  readLinesFrom defaultBufSize s [] 0.

End Bufio.

(** ** The world outside the program *)

(** A Go [error]: [None] is [nil], [Some msg] has [Error() = msg]. *)
Definition error : Type := option string.

(** What the logger and the webhook receive, and the pauses taken. *)
Inductive event : Type :=
  | LogInfo (msg : string) (fields : list (string * string))
  | LogError (msg : string) (fields : list (string * string))
  | Notified (msg : string)
  | Slept (seconds : Z).

(** The outcome of one HTTP exchange followed by [io.Copy] into the
    destination file. *)
Inductive http_result : Type :=
  | DoFailed (err : string)
      (* http.NewRequest or client.Do returned [err] *)
  | Body (body : string)
      (* the whole body was copied *)
  | Truncated (written err : string).
      (* io.Copy returned [err] after writing [written] *)

(** Everything the environment decides.  The library functions the code
    calls on paths are taken as given. *)
Record Env : Type := mkEnv {
  NFC : string -> string;                    (* norm.NFC.String *)
  filepath_Dir : string -> string;
  filepath_Base : string -> string;
  filepath_Join : string -> string -> string;
  now : nat -> string;
    (* time.Now().Format("2006-01-02 15:04:05") at the k-th reading *)
  http_get : nat -> string -> http_result;
    (* the k-th request of the process, for a URL, with net/http *)
  got_download : nat -> string -> string -> http_result;
    (* the k-th request of the process, URL and destination, with got *)
  create_err : string -> error;              (* os.Create on a path *)
  remove_err : string -> error;              (* os.Remove on an existing path *)
  mkdir_err : string -> error;               (* os.MkdirAll on a missing directory *)
  copy_fault : string -> option (nat * string);
    (* CopyFile: io.Copy into a path fails after so many bytes *)
  finish_err : string -> error;
    (* CopyFile: Sync, Stat, Chmod or Close fails for a destination *)
  truncate_err : error;                      (* FailedDownloadFile.Truncate *)
  webhook_url : string;                      (* DiscordWebhook.Url *)
  webhook_err : string -> error              (* discordwebhook.SendMessage *)
}.

(** The state the program acts on: regular files by path, the directories
    made by the program, the clock readings and requests so far, and the
    output so far (latest first). *)
Record World : Type := mkWorld {
  fs : gmap string string;
  dirs : gset string;
  ticks : nat;
  requests : nat;
  out : list event
}.

Definition set_fs (f : gmap string string -> gmap string string) (w : World) : World :=
  mkWorld (f (fs w)) (dirs w) (ticks w) (requests w) (out w).

Definition emit (e : event) (w : World) : World :=
  mkWorld (fs w) (dirs w) (ticks w) (requests w) (e :: out w).

(** ** A state monad with panics *)

Inductive Res (A : Type) : Type :=
  | Val (a : A)
  | Panic (msg : string).
Arguments Val {A} a.
Arguments Panic {A} msg.

Definition M (A : Type) : Type := World -> Res A * World.

Definition ret {A : Type} (a : A) : M A := fun w => (Val a, w).

Definition bind {A B : Type} (m : M A) (k : A -> M B) : M B :=
  fun w =>
    match m w with
    | (Val a, w') => k a w'
    | (Panic msg, w') => (Panic msg, w')
    end.

Definition panic {A : Type} (msg : string) : M A := fun w => (Panic msg, w).

Definition get : M World := fun w => (Val w, w).

Definition modify (f : World -> World) : M unit := fun w => (Val tt, f w).

Declare Scope go_scope.
Delimit Scope go_scope with go.
Notation "x <- m ;; k" := (bind m (fun x => k))
  (at level 90, m at level 80, k at level 200, right associativity) : go_scope.
Notation "m ;;; k" := (bind m (fun _ => k))
  (at level 90, k at level 200, right associativity) : go_scope.
Local Open Scope go_scope.

(** ** Logging, the clock and the webhook *)

Definition log_Info (msg : string) (fields : list (string * string)) : M unit :=
  modify (emit (LogInfo msg fields)).
Definition log_Error (msg : string) (fields : list (string * string)) : M unit :=
  modify (emit (LogError msg fields)).

(** [zap.String(key, val)]. *)
Definition zap_String (key val : string) : string * string := (key, val).

(** [time.Sleep] of so many seconds. *)
Definition time_Sleep (seconds : Z) : M unit := modify (emit (Slept seconds)).

Section Program.

Variable E : Env.

(** [GetCurrentDateTime]: the formatted current time; each reading
    advances the count of readings. *)
Definition GetCurrentDateTime : M string :=
  fun w => (Val (now E (ticks w)),
            mkWorld (fs w) (dirs w) (S (ticks w)) (requests w) (out w)).

(** [Send] of the webhook: nothing is sent when no URL is configured. *)
Definition Send (message : string) : M error :=
  if String.eqb (webhook_url E) "" then ret None
  else (modify (emit (Notified message)) ;;; ret (webhook_err E message)).

(** ** Package [os] *)

Definition os_ReadFile (path : string) : M (option string) :=
  fun w => (Val (fs w !! path), w).

(** [os.Create]: the file is made, or emptied. *)
Definition os_Create (path : string) : M error :=
  match create_err E path with
  | Some e => ret (Some e)
  | None => (modify (set_fs (insert path "")) ;;; ret None)
  end.

(** Writing through an open handle replaces what the file holds from the
    handle's offset; the callers write a fresh file from offset 0. *)
Definition write_file (path content : string) : M unit :=
  modify (set_fs (insert path content)).

Definition os_Remove (path : string) : M error :=
  fun w =>
    match fs w !! path with
    | None => (Val (Some ("remove " ++ path ++ ": no such file or directory")), w)
    | Some _ =>
        match remove_err E path with
        | Some e => (Val (Some e), w)
        | None => (Val None, set_fs (delete path) w)
        end
    end.

(** A directory exists when the program made it or a file lies in it. *)
Definition dir_exists (w : World) (dir : string) : bool :=
  bool_decide (dir ∈ dirs w) ||
  existsb (fun kv => String.eqb (filepath_Dir E (fst kv)) dir) (map_to_list (fs w)).

(** [os.MkdirAll]: nothing to do for a directory that exists. *)
Definition os_MkdirAll (dir : string) : M error :=
  fun w =>
    if dir_exists w dir then (Val None, w)
    else match mkdir_err E dir with
         | Some e => (Val (Some e), w)
         | None => (Val None,
                    mkWorld (fs w) ({[ dir ]} ∪ dirs w) (ticks w) (requests w) (out w))
         end.

(** [os.ReadDir]: the names of the files of a directory. *)
Definition os_ReadDir (dir : string) : M (option (list string)) :=
  fun w =>
    if dir_exists w dir
    then (Val (Some (map (fun kv => filepath_Base E (fst kv))
                      (List.filter (fun kv => String.eqb (filepath_Dir E (fst kv)) dir)
                                   (map_to_list (fs w))))), w)
    else (Val None, w).

(** ** Package [utils] *)

Definition FailedDownloadFileName : string := "failed-download.txt".

(** The body a provider sends, with status 200, when it blocks the client. *)
Definition marker1015 : string := "error code: 1015".

Definition nl : string := String Bufio.LF EmptyString.
Definition crlf : string := String Bufio.CR (String Bufio.LF EmptyString).

(** [init]: the ledger is opened for appending and created when absent;
    [FailedDownloadFile] is the handle. *)
Definition init : M unit :=
  f <- os_ReadFile FailedDownloadFileName ;;
  match f with
  | Some _ => ret tt
  | None =>
      err <- os_Create FailedDownloadFileName ;;
      match err with
      | Some e => log_Error "错误日志文件创建失败: " [zap_String "error" e]
      | None => ret tt
      end
  end.

(** Writing to the handle [FailedDownloadFile], opened with O_APPEND: the
    bytes go to the end of the file the handle is open on.  The callers
    drop the error of a write. *)
Definition FailedDownloadFile_Write (s : string) : M unit :=
  modify (set_fs (alter (fun old => old ++ s) FailedDownloadFileName)).

Definition FailedDownloadFile_Truncate0 : M error :=
  match truncate_err E with
  | Some e => ret (Some e)
  | None => (modify (set_fs (alter (fun _ => "") FailedDownloadFileName)) ;;; ret None)
  end.

Definition FileOrDirExists (path : string) : M bool :=
  let path := NFC E path in
  files <- os_ReadDir (filepath_Dir E path) ;;
  match files with
  | None => ret false
  | Some files =>
      ret (existsb (fun name => String.eqb (NFC E name) (NFC E (filepath_Base E path)))
                   files)
  end.

(** [client.Do] of a GET request for a URL, with what [io.Copy] will do
    with the body. *)
Definition client_Do (fileUrl : string) : M http_result :=
  fun w => (Val (http_get E (requests w) fileUrl),
            mkWorld (fs w) (dirs w) (ticks w) (S (requests w)) (out w)).

Definition DownloadFile (storePath fileUrl : string) : M error :=
  resp <- client_Do fileUrl ;;
  match resp with
  | DoFailed e => ret (Some e)
  | Body body =>
      err <- os_Create storePath ;;
      match err with
      | Some e => ret (Some e)
      | None => (write_file storePath body ;;; ret None)
      end
  | Truncated written e =>
      err <- os_Create storePath ;;
      match err with
      | Some e' => ret (Some e')
      | None => (write_file storePath written ;;; ret (Some e))
      end
  end.

(** [got.New().Download(url, dest)]. *)
Definition got_Download (fileUrl dest : string) : M error :=
  fun w =>
    let w' := mkWorld (fs w) (dirs w) (ticks w) (S (requests w)) (out w) in
    match got_download E (requests w) fileUrl dest with
    | DoFailed e => (Val (Some e), w')
    | Body body => (Val None, set_fs (insert dest body) w')
    | Truncated written e => (Val (Some e), set_fs (insert dest written) w')
    end.

(** The closure [NewFileDownloader(url, path, filename)] returns. *)
Definition NewFileDownloader (url path filename : string) : M error :=
  let fileUrl := url in
  let filePathToStore := path in
  let fileName := filename in
  let storePath := filepath_Join E filePathToStore fileName in
  err <- got_Download fileUrl storePath ;;
  match err with
  | Some e0 =>
      err <- (if Strings.Contains e0 "Content-Length"
              then DownloadFile storePath fileUrl else ret (Some e0)) ;;
      match err with
      | None => (log_Info "文件下载成功: " [zap_String "info" fileName] ;;; ret None)
      | Some e =>
          log_Error e [] ;;;
          log_Error ("文件: " ++ fileName ++ "下载失败: " ++ e) [] ;;;
          serr <- Send ("文件: " ++ storePath ++ "下载失败: " ++ e) ;;
          match serr with
          | Some se => log_Error "发送Discord Webhook失败: " [zap_String "error" se]
          | None => ret tt
          end ;;;
          t <- GetCurrentDateTime ;;
          let logStr := t ++ "|" ++ storePath ++ "|" ++ fileUrl ++ nl in
          FailedDownloadFile_Write logStr ;;;
          err2 <- os_Remove storePath ;;
          match err2 with
          | Some e2 => log_Error "删除碎片文件失败文件失败:" [zap_String "error" e2]
          | None => ret tt
          end ;;;
          ret None
      end
  | None => (log_Info "文件下载成功: " [zap_String "info" fileName] ;;; ret None)
  end.

(** The part of [NewFixFileDownloader] from the call of [DownloadFile]
    on. *)
Definition fixFetch (url storePath : string) (resultLines : list string)
  : M (list string * error) :=
  err <- DownloadFile storePath url ;;
  match err with
  | Some e =>
      log_Error e [] ;;;
      log_Error ("文件: " ++ storePath ++ "下载失败: " ++ e) [] ;;;
      serr <- Send ("文件: " ++ storePath ++ "下载失败: " ++ e) ;;
      match serr with
      | Some se => log_Error "发送Discord Webhook失败: " [zap_String "error" se]
      | None => ret tt
      end ;;;
      t <- GetCurrentDateTime ;;
      let logStr := t ++ "|" ++ storePath ++ "|" ++ url in
      ret (app resultLines [logStr], None)
  | None =>
      content <- os_ReadFile storePath ;;
      if bool_decide (content = Some marker1015) then
        log_Error ("文件: " ++ storePath ++ " 下载遇到了 1015 错误，休眠10秒后重试。") [] ;;;
        serr <- Send ("文件: " ++ storePath ++ " 下载遇到了 1015 错误，休眠10秒后重试。") ;;
        match serr with
        | Some se => log_Error "发送Discord Webhook失败: " [zap_String "error" se]
        | None => ret tt
        end ;;;
        time_Sleep 10 ;;;
        t <- GetCurrentDateTime ;;
        ret (app resultLines [t ++ "|" ++ storePath ++ "|" ++ url], None)
      else
        (log_Info "文件下载成功: " [zap_String "info" storePath] ;;;
         ret (resultLines, None))
  end.

Definition NewFixFileDownloader (url storePath : string) (resultLines : list string)
  : M (list string * error) :=
  exists_ <- FileOrDirExists storePath ;;
  mkdirErr <- (if negb exists_ then os_MkdirAll (filepath_Dir E storePath)
               else ret None) ;;
  match mkdirErr with
  | Some err =>
      log_Error ("自动创建上一次下载失败文件目录失败: " ++ err) [] ;;;
      ret ([], None)
  | None =>
      content <- os_ReadFile storePath ;;
      match content with
      | Some content =>
          if String.eqb content marker1015
          then (os_Remove storePath ;;; fixFetch url storePath resultLines)
          else ret (resultLines, None)
      | None => fixFetch url storePath resultLines
      end
  end.

(** [CopyFile(src, dst)]. *)
Definition CopyFile (src dst : string) : M error :=
  in_ <- os_ReadFile src ;;
  match in_ with
  | None => ret (Some ("open " ++ src ++ ": no such file or directory"))
  | Some content =>
      err <- os_Create dst ;;
      match err with
      | Some e => ret (Some e)
      | None =>
          match copy_fault E dst with
          | Some (n, e) => (write_file dst (substring 0 n content) ;;; ret (Some e))
          | None => (write_file dst content ;;; ret (finish_err E dst))
          end
      end
  end.

(** The loop both readers of the ledger run: the lines ReadLine returns
    that are not empty once CR and LF are trimmed. *)
Definition readResultLine (content : string) : list string :=
  List.filter (fun line => (0 <? String.length (Strings.Trim line crlf))%nat)
              (Bufio.ReadLines content).

(** [s[i]] on a slice of strings. *)
Definition index_ (s : list string) (i : nat) : M string :=
  match s !! i with
  | Some x => ret x
  | None => panic ("runtime error: index out of range [" ++ pretty i
                   ++ "] with length " ++ pretty (length s))
  end.

(** The retry loop of [FixBrokenDownloadFile] for one line: [n] is the
    number of iterations [i < maxRetry] still allows, and the state is
    [(resultContainer, lastSuccessIndex)]. *)
Fixpoint retryLine (maxRetry index : Z) (brokenLine : string) (n : nat) (i : Z)
    (st : list string * Z) : M (list string * Z) :=
  match n with
  | O => ret st
  | S n' =>
      let '(resultContainer, lastSuccessIndex) := st in
      if index =? lastSuccessIndex then ret st
      else
        log_Info ("index: " ++ pretty index ++ ",line: " ++ brokenLine) [] ;;;
        let fileInfos := Strings.Split brokenLine "|" in
        url <- index_ fileInfos 2 ;;
        storePath <- index_ fileInfos 1 ;;
        downloader <- NewFixFileDownloader url storePath resultContainer ;;
        let resultContainer := fst downloader in
        if Z.of_nat (length resultContainer) <=? 0 then ret (resultContainer, index)
        else
          serr <- Send ("重试下载文件再次出错,重试中(剩余重试次数: "
                        ++ pretty (maxRetry - i - 1) ++ ")...") ;;
          match serr with
          | Some se => log_Error "发送Discord Webhook失败: " [zap_String "error" se]
          | None => ret tt
          end ;;;
          log_Info ("重试下载文件再次出错,重试中(剩余重试次数: "
                    ++ pretty (maxRetry - i - 1) ++ ")...") [] ;;;
          retryLine maxRetry index brokenLine n' (i + 1) (resultContainer, lastSuccessIndex)
  end.

(** The loop over the lines read from the snapshot. *)
Fixpoint replay (maxRetry : Z) (resultLine : list string) (index : Z)
    (st : list string * Z) : M (list string * Z) :=
  match resultLine with
  | [] => ret st
  | brokenLine :: rest =>
      st' <- retryLine maxRetry index brokenLine (Z.to_nat maxRetry) 0 st ;;
      replay maxRetry rest (index + 1) st'
  end.

(** The [return] by which [FixBrokenDownloadFile] ends. *)
Inductive pass_end : Type :=
  | CopyAborted
  | OpenAborted
  | RemoveAborted
  | TruncateAborted
  | Completed.

Definition FixBrokenDownloadFile (maxRetry : Z) : M pass_end :=
  log_Info "正在自动处理下载失败的媒体文件,请稍后..." [] ;;;
  let FailedDownloadFileNameTemp := FailedDownloadFileName ++ ".tmp" in
  err <- CopyFile FailedDownloadFileName (FailedDownloadFileName ++ ".tmp") ;;
  match err with
  | Some e =>
      log_Error ("复制文件: " ++ FailedDownloadFileName ++ "失败: " ++ e) [] ;;;
      ret CopyAborted
  | None =>
      fi <- os_ReadFile FailedDownloadFileNameTemp ;;
      match fi with
      | None =>
          log_Error ("Error: open " ++ FailedDownloadFileNameTemp
                     ++ ": no such file or directory") [] ;;;
          ret OpenAborted
      | Some content =>
          let resultLine := readResultLine content in
          replay maxRetry resultLine 0 ([], -1) ;;;
          err2 <- os_Remove FailedDownloadFileNameTemp ;;
          match err2 with
          | Some e2 =>
              log_Error "删除临时文件失败:" [zap_String "error" e2] ;;;
              ret RemoveAborted
          | None =>
              err <- FailedDownloadFile_Truncate0 ;;
              match err with
              | Some e =>
                  log_Error "清空下载失败日志文件失败:" [zap_String "error" e] ;;;
                  ret TruncateAborted
              | None =>
                  log_Info "重试下载失败媒体文件已处理完成!" [] ;;;
                  ret Completed
              end
          end
      end
  end.

Definition CheckIfNeedFixBrokenDownloadFile : M bool :=
  file <- os_ReadFile FailedDownloadFileName ;;
  match file with
  | None =>
      log_Error ("打开文件失败: open " ++ FailedDownloadFileName
                 ++ ": no such file or directory") [] ;;;
      ret false
  | Some content =>
      let resultLine := readResultLine content in
      ret (negb (length resultLine =? 0)%nat)
  end.

(** ** Vocabulary of the statements *)

(** The log line of a directory that cannot be made. *)
Definition mkdirFailure (err : string) : event :=
  LogError ("自动创建上一次下载失败文件目录失败: " ++ err) [].

(** [keeps q c m]: running [m] where file [q] holds [c] leaves it so,
    also when [m] panics. *)
Definition keeps {A : Type} (q c : string) (m : M A) : Prop :=
  forall w : World, fs w !! q = Some c -> fs (snd (m w)) !! q = Some c.

(** The field of a ledger line after its [i]-th separator. *)
Definition field (line : string) (i : nat) : string :=
  default EmptyString (Strings.Split line "|" !! i).






(** An attempt that resolves the entry: the destination is there and is
    not the marker, or it is absent, its directory and the file can be
    made, and the body served is not the marker. *)
Definition resolvesAt (w : World) (url storePath : string) : Prop :=
  match fs w !! storePath with
  | Some content => content <> marker1015
  | None =>
      mkdir_err E (filepath_Dir E storePath) = None /\
      create_err E storePath = None /\
      exists body, http_get E (requests w) url = Body body /\ body <> marker1015
  end.

End Program.

(** ** The pure helpers of package [utils] *)

(** A Go [int] on a 64-bit platform: the value an arithmetic result wraps
    to. *)
Definition wrap64 (z : Z) : Z := (z + 2 ^ 63) mod 2 ^ 64 - 2 ^ 63.

(** [CalculateMaxPage(totalCount, pageSize)]; Go's [/] and [%] truncate
    towards zero. *)
Definition CalculateMaxPage (totalCount pageSize : Z) : Res Z :=
  if (totalCount <? 0) || (pageSize <=? 0)
  then Panic "totalCount必须大于等于0, pageSize必须大于0"
  else if totalCount =? 0 then Val 1
  else
    let i := Z.quot totalCount pageSize in
    let padding := Z.rem totalCount pageSize in
    if negb (padding =? 0) then Val (wrap64 (i + 1)) else Val i.

(** The loop of [MosaicStr]: [n] more calls of [result.WriteString]. *)
Fixpoint writeTimes (n : nat) (mosaicStrTmp result : string) : string :=
  match n with
  | O => result
  | S n' => writeTimes n' mosaicStrTmp (result ++ mosaicStrTmp)
  end.

(** [MosaicStr(inputStr, mosaicStrTmp)]. *)
Definition MosaicStr (inputStr mosaicStrTmp : string) : string :=
  let mosaicStrTmp := if String.eqb mosaicStrTmp "" then "*" else mosaicStrTmp in
  let size := String.length inputStr in
  writeTimes size mosaicStrTmp "".

(** ** More vocabulary *)

(** [untouched q m]: running [m] leaves file [q] as it is (there or
    not), also when [m] panics. *)
Definition untouched {A : Type} (q : string) (m : M A) : Prop :=
  forall w : World, fs (snd (m w)) !! q = fs w !! q.

(** [within k m]: running [m] sends at most [k] requests, also when [m]
    panics. *)
Definition within {A : Type} (k : nat) (m : M A) : Prop :=
  forall w : World, (requests w <= requests (snd (m w)) <= requests w + k)%nat.

(** [safe m]: [m] does not panic. *)
Definition safe {A : Type} (m : M A) : Prop :=
  forall w : World, exists (a : A) (w' : World), m w = (Val a, w').

(** The text of a ledger with the given lines, each ended by a line
    feed, as the appends of [NewFileDownloader] leave it. *)
Fixpoint ledgerText (lines : list string) : string :=
  match lines with
  | [] => ""
  | line :: rest => line ++ nl ++ ledgerText rest
  end.

(** A line the ledger can hold as one entry: not empty, shorter than the
    reader's buffer, without CR and LF. *)
Definition plainLine (line : string) : Prop :=
  line <> "" /\
  (String.length line < Bufio.defaultBufSize)%nat /\
  Strings.inCutset Bufio.CR line = false /\
  Strings.inCutset Bufio.LF line = false.

(** The error [DownloadFile] returns for the [k]-th request of the
    process. *)
Definition fallbackError (E : Env) (k : nat) (fileUrl storePath : string) : error :=
  match http_get E k fileUrl with
  | DoFailed e => Some e
  | Body _ => create_err E storePath
  | Truncated _ e =>
      match create_err E storePath with
      | Some e' => Some e'
      | None => Some e
      end
  end.

(** The error the closure of [NewFileDownloader] ends with, before it
    returns nil: that of the download, or that of the second try after a
    Content-Length error. *)
Definition firstPassError (E : Env) (w : World) (fileUrl storePath : string) : error :=
  match got_download E (requests w) fileUrl storePath with
  | Body _ => None
  | DoFailed e | Truncated _ e =>
      if Strings.Contains e "Content-Length"
      then fallbackError E (S (requests w)) fileUrl storePath
      else Some e
  end.

(** The part of [FixBrokenDownloadFile] after the replay loop: the
    snapshot is deleted, then the ledger is truncated. *)
Definition commit (E : Env) : M pass_end :=
  let FailedDownloadFileNameTemp := FailedDownloadFileName ++ ".tmp" in
  err2 <- os_Remove E FailedDownloadFileNameTemp ;;
  match err2 with
  | Some e2 =>
      log_Error "删除临时文件失败:" [zap_String "error" e2] ;;;
      ret RemoveAborted
  | None =>
      err <- FailedDownloadFile_Truncate0 E ;;
      match err with
      | Some e =>
          log_Error "清空下载失败日志文件失败:" [zap_String "error" e] ;;;
          ret TruncateAborted
      | None =>
          log_Info "重试下载失败媒体文件已处理完成!" [] ;;;
          ret Completed
      end
  end.

(** The first line [FixBrokenDownloadFile] logs. *)
Definition firstLog : event := LogInfo "正在自动处理下载失败的媒体文件,请稍后..." [].


(** ** A concrete environment for the examples *)

Module Sample.

Fixpoint joinWith (sep : string) (parts : list string) : string :=
  match parts with
  | [] => ""
  | [x] => x
  | x :: rest => x ++ sep ++ joinWith sep rest
  end.

(** The path up to its last slash, ["."] when it has none. *)
Definition Dir (path : string) : string :=
  match rev (Strings.Split path "/") with
  | [] | [_] => "."
  | _ :: revInit => joinWith "/" (rev revInit)
  end.

(** The path after its last slash. *)
Definition Base (path : string) : string :=
  match rev (Strings.Split path "/") with
  | [] => "."
  | x :: _ => x
  end.

Definition Join (dir name : string) : string := dir ++ "/" ++ name.

(** Clock readings ["T0"], ["T1"], ... *)
Definition clock (k : nat) : string := "T" ++ pretty k.

(** An environment without local faults and without a webhook, over a
    given network. *)
Definition env (http : nat -> string -> http_result)
    (got : nat -> string -> string -> http_result) : Env :=
  mkEnv (fun s => s) Dir Base Join clock http got
        (fun _ => None) (fun _ => None) (fun _ => None) (fun _ => None)
        (fun _ => None) None "" (fun _ => None).

Definition refused : http_result := DoFailed "dial tcp: connection refused".

(** A world holding only the ledger. *)
Definition world (ledger : string) : World :=
  mkWorld {[ FailedDownloadFileName := ledger ]} ∅ 0 0 [].

Definition lineA : string := "2024-01-01 00:00:00|/out/a.mp3|http://x/a.mp3".
Definition lineB : string := "2024-01-01 00:00:01|/out/b.mp3|http://x/b.mp3".

End Sample.

(** ** Concrete runs *)

Module Runs.

Import Sample.

(** The network is down: every request is refused. *)
Definition envDown : Env := env (fun _ _ => refused) (fun _ _ _ => refused).

(** The world in which the replay loop of [FixBrokenDownloadFile] starts:
    after the first log line and the snapshot. *)
Definition snapshotted (E : Env) (w : World) : World :=
  snd (CopyFile E FailedDownloadFileName (FailedDownloadFileName ++ ".tmp")
         (snd (log_Info "正在自动处理下载失败的媒体文件,请稍后..." [] w))).

(** The stub of the two-entry scenario: [a.mp3] fails twice and then
    succeeds, [b.mp3] always fails. *)
Definition httpAB (k : nat) (url : string) : http_result :=
  if String.eqb url "http://x/a.mp3"
  then (if (k <? 2)%nat then refused else Body "AUDIO")
  else refused.
Definition envAB : Env := env httpAB (fun _ _ _ => refused).

(** [b.mp3] always fails, [a.mp3] is served at once. *)
Definition httpBA (k : nat) (url : string) : http_result :=
  if String.eqb url "http://x/a.mp3" then Body "AUDIO" else refused.
Definition envBA : Env := env httpBA (fun _ _ _ => refused).

(** The connection breaks after three bytes of the body. *)
Definition envCut : Env :=
  env (fun _ _ => Truncated "par" "unexpected EOF")
      (fun _ _ _ => Truncated "par" "unexpected EOF").

(** The attempts logged for the line of a given index. *)
Definition attempts (index : Z) (line : string) (w : World) : nat :=
  length (List.filter
            (fun e => match e with
                      | LogInfo msg _ =>
                          String.eqb msg ("index: " ++ pretty index ++ ",line: " ++ line)
                      | _ => false
                      end) (out w)).

(** Removing files is not permitted. *)
Definition envStuck : Env :=
  mkEnv (fun s => s) Dir Base Join clock (fun _ _ => refused) (fun _ _ _ => refused)
        (fun _ => None) (fun _ => Some "operation not permitted") (fun _ => None)
        (fun _ => None) (fun _ => None) None "" (fun _ => None).

(** No directory can be made. *)
Definition envNoDir : Env :=
  mkEnv (fun s => s) Dir Base Join clock (fun _ _ => refused) (fun _ _ _ => refused)
        (fun _ => None) (fun _ => None) (fun _ => Some "mkdir /out: permission denied")
        (fun _ => None) (fun _ => None) None "" (fun _ => None).

(** The first request meets a Content-Length error, the second is
    served. *)
Definition envLength : Env :=
  env (fun _ _ => Body "AUDIO")
      (fun _ _ _ => DoFailed "Response status code is not ok: Content-Length").

(** Every request is answered by the block page. *)
Definition envBlocked : Env :=
  env (fun _ _ => Body marker1015) (fun _ _ _ => Body marker1015).

(** The log lines that announce another retry after a failed one. *)
Definition retryNotices (w : World) : nat :=
  length (List.filter
            (fun e => match e with
                      | LogInfo msg _ => Strings.HasPrefix msg "重试下载文件再次出错"
                      | _ => false
                      end) (out w)).

(** The network is down and a webhook is configured. *)
Definition envHook : Env :=
  mkEnv (fun s => s) Dir Base Join clock (fun _ _ => refused) (fun _ _ _ => refused)
        (fun _ => None) (fun _ => None) (fun _ => None) (fun _ => None)
        (fun _ => None) None "https://discord.example/hook" (fun _ => None).

(** Every request is served. *)
Definition envUp : Env :=
  env (fun _ _ => Body "AUDIO") (fun _ _ _ => Body "AUDIO").

End Runs.

(** ** The lines of a text *)

Module Lines.

Import Strings Bufio.

(** A byte other than CR and LF. *)
Definition isText (c : ascii) : bool := negb (inCutset c crlf).

Fixpoint hasText (s : string) : bool :=
  match s with
  | EmptyString => false
  | String c s' => isText c || hasText s'
  end.

(** The lines of a text, as the specification counts them: the pieces
    between line feeds. *)
Definition linesOf (content : string) : list string := Split content LF.

End Lines.

(** ** Lines and blank lines *)

Module LinesFacts.

Import Strings Bufio Lines.

Lemma TrimLeft_hasText (s : string) : hasText (TrimLeft s crlf) = hasText s.
Proof.
  induction s as [|c s IH]; [reflexivity|].
  cbn [TrimLeft hasText]. unfold isText.
  destruct (inCutset c crlf) eqn:Hc; cbn [negb orb]; [exact IH|].
  cbn [hasText]. unfold isText. now rewrite Hc.
Qed.

Lemma TrimRight_empty (s : string) :
  TrimRight s crlf = EmptyString <-> hasText s = false.
Proof.
  induction s as [|c s IH]; [easy|].
  cbn [TrimRight hasText]. unfold isText.
  destruct (TrimRight s crlf) eqn:Ht, (inCutset c crlf), (hasText s);
    cbn [negb orb]; intuition congruence.
Qed.

Lemma Trim_empty (s : string) :
  Trim s crlf = EmptyString <-> hasText s = false.
Proof. unfold Trim. now rewrite TrimRight_empty, TrimLeft_hasText. Qed.

(** The test [len(strings.Trim(line, "\r\n")) > 0] of the two readers. *)
Lemma notBlank_hasText (line : string) :
  (0 <? String.length (Trim line crlf))%nat = hasText line.
Proof.
  destruct (hasText line) eqn:Hh.
  - destruct (Trim line crlf) eqn:Ht; [|reflexivity].
    apply Trim_empty in Ht. congruence.
  - apply Trim_empty in Hh. now rewrite Hh.
Qed.

Lemma hasText_of_list (l : list ascii) :
  hasText (string_of_list_ascii l) = existsb isText l.
Proof. induction l as [|c l IH]; [reflexivity|]. cbn. now rewrite IH. Qed.

Lemma hasText_ofRev (rcur : list ascii) : hasText (ofRev rcur) = existsb isText rcur.
Proof.
  unfold ofRev. rewrite hasText_of_list.
  induction rcur as [|c l IH]; [reflexivity|].
  cbn [rev existsb]. rewrite existsb_app, IH. cbn [existsb].
  now rewrite orb_false_r, orb_comm.
Qed.

Lemma hasText_dropCR (rcur : list ascii) :
  existsb isText (dropCR rcur) = existsb isText rcur.
Proof.
  destruct rcur as [|c l]; [reflexivity|]. cbn [dropCR].
  destruct (Ascii.eqb_spec c CR) as [->|_]; reflexivity.
Qed.

(** The lines ReadLine returns hold the bytes of the text other than the
    line ends, whatever the size of the buffer. *)
Lemma readLinesFrom_hasText (size : nat) (s : string) :
  forall (rcur : list ascii) (n : nat),
    existsb hasText (readLinesFrom size s rcur n) = existsb isText rcur || hasText s.
Proof.
  induction s as [|c s IH]; intros rcur n.
  - cbn [readLinesFrom hasText]. rewrite orb_false_r.
    destruct rcur; [reflexivity|].
    cbn [existsb]. now rewrite orb_false_r, hasText_ofRev.
  - cbn [readLinesFrom hasText].
    destruct (Ascii.eqb_spec c LF) as [->|_].
    { cbn [existsb]. now rewrite IH, hasText_ofRev, hasText_dropCR. }
    destruct (S n =? size)%nat.
    + destruct (Ascii.eqb_spec c CR) as [->|_]; cbn [existsb];
        rewrite IH, hasText_ofRev; cbn [existsb].
      * now destruct (existsb isText rcur), (hasText s).
      * now destruct (isText c), (existsb isText rcur), (hasText s).
    + rewrite IH. cbn [existsb].
      now destruct (isText c), (existsb isText rcur), (hasText s).
Qed.

Lemma linesOf_hasText (s : string) : existsb hasText (linesOf s) = hasText s.
Proof.
  unfold linesOf. induction s as [|c s IH]; [reflexivity|].
  cbn [Split hasText].
  destruct (Ascii.eqb_spec c LF) as [->|_].
  - cbn [existsb hasText]. now rewrite IH.
  - rewrite <- IH. destruct (Split s LF) as [|f fs]; cbn [existsb hasText].
    + now rewrite !orb_false_r.
    + now rewrite orb_assoc.
Qed.

Lemma filter_nonempty {A : Type} (f : A -> bool) (l : list A) :
  negb (length (List.filter f l) =? 0)%nat = existsb f l.
Proof.
  induction l as [|a l IH]; [reflexivity|].
  cbn [List.filter existsb]. destruct (f a); [reflexivity|exact IH].
Qed.

Lemma existsb_pointwise {A : Type} (f g : A -> bool) (l : list A) :
  (forall a, f a = g a) -> existsb f l = existsb g l.
Proof.
  intros Hfg. induction l as [|a l IH]; [reflexivity|].
  cbn [existsb]. now rewrite Hfg, IH.
Qed.

(** Some line is kept exactly when the text has a byte other than CR and
    LF. *)
Lemma readResultLine_nonempty (content : string) :
  negb (length (readResultLine content) =? 0)%nat = hasText content.
Proof.
  unfold readResultLine. rewrite filter_nonempty.
  rewrite (existsb_pointwise _ hasText).
  - unfold ReadLines. now rewrite readLinesFrom_hasText.
  - intros line. apply notBlank_hasText.
Qed.

End LinesFacts.

(** ** What the closures return *)

Ltac unfold_monad :=
  cbv [bind ret modify panic get log_Info log_Error time_Sleep Send
       GetCurrentDateTime os_ReadFile os_Create write_file os_Remove
       FailedDownloadFile_Write FailedDownloadFile_Truncate0 client_Do].

Section Downloaders.

Variable E : Env.

(** The closure of [NewFileDownloader] returns nil, and does not panic,
    on every path. *)
Lemma NewFileDownloader_returns_nil (url path filename : string) (w : World) :
  fst (NewFileDownloader E url path filename w) = Val None.
Proof.
  unfold NewFileDownloader, got_Download, DownloadFile.
  unfold_monad.
  repeat (case_match; simplify_eq/=; try reflexivity).
Qed.

(** C8.  The closure of [NewFileDownloader] returns nil, and does not
    panic, whatever the URL, the directory, the file name and the state
    of the world.  When the download (or the second try after a
    Content-Length error) succeeds, it logs the success and nothing
    else, reads no clock and leaves the ledger as it is.  When it ends in
    an error, the error is reported nowhere but in the log, in a message
    to the webhook (when one is configured) and in one line
    [time|storePath|url] appended to the ledger. *)
Theorem NewFileDownloader_nil_and_recorded (url path filename : string) (w : World) :
  let storePath := filepath_Join E path filename in
  exists w',
    NewFileDownloader E url path filename w = (Val None, w') /\
    match firstPassError E w url storePath with
    | None =>
        out w' = LogInfo "文件下载成功: " [zap_String "info" filename] :: out w /\
        ticks w' = ticks w /\
        (storePath <> FailedDownloadFileName ->
         fs w' !! FailedDownloadFileName = fs w !! FailedDownloadFileName)
    | Some e =>
        In (LogError ("文件: " ++ filename ++ "下载失败: " ++ e) []) (out w') /\
        (webhook_url E <> "" ->
         In (Notified ("文件: " ++ storePath ++ "下载失败: " ++ e)) (out w')) /\
        (storePath <> FailedDownloadFileName ->
         fs w' !! FailedDownloadFileName
         = (fun old => old ++ (now E (ticks w) ++ "|" ++ storePath ++ "|" ++ url ++ nl))
             <$> fs w !! FailedDownloadFileName)
    end.
Proof.
  intros storePath.
  exists (snd (NewFileDownloader E url path filename w)). split.
  { pose proof (NewFileDownloader_returns_nil url path filename w) as Hnil.
    destruct (NewFileDownloader E url path filename w) as [r w']. cbn [fst snd] in *.
    now subst r. }
  unfold NewFileDownloader, got_Download, DownloadFile, firstPassError, fallbackError.
  fold storePath. unfold_monad. cbn [requests].
  destruct (got_download E (requests w) url storePath) as [e0|body0|written0 e0];
    cbv beta iota.
  2: { cbn [snd out emit ticks fs set_fs]. repeat split.
       intros Hne. now rewrite lookup_insert_ne by congruence. }
  all: destruct (Strings.Contains e0 "Content-Length"); cbv beta iota; cbn [requests set_fs].
  all: try (destruct (http_get E (S (requests w)) url) as [e1|body1|written1 e1];
            cbv beta iota; try destruct (create_err E storePath) as [e2|]; cbv beta iota).
  all: try (cbn [snd out emit ticks fs set_fs]; repeat split;
            intros Hne; now rewrite ?lookup_insert_ne by congruence).
  all: destruct (String.eqb (webhook_url E) "") eqn:Hu; cbv beta iota;
       try destruct (webhook_err E _); cbv beta iota;
       cbn [fs set_fs emit ticks requests out];
       match goal with
       | |- context [match ?m !! ?p with _ => _ end] => destruct (m !! p)
       end;
       try destruct (remove_err E _); cbv beta iota;
       cbn [snd fs set_fs emit ticks requests out].
  all: split; [cbn [In]; tauto|].
  all: split;
       [intros Hw; try (apply String.eqb_eq in Hu; contradiction); cbn [In]; tauto
       |intros Hne;
        rewrite ?lookup_delete_ne by congruence;
        rewrite lookup_alter_eq, ?lookup_insert_ne by congruence; reflexivity].
Qed.


(** *** Reading the directory does not change the world *)

Lemma FileOrDirExists_world (path : string) (w : World) :
  exists b : bool, FileOrDirExists E path w = (Val b, w).
Proof.
  unfold FileOrDirExists, os_ReadDir; unfold_monad.
  destruct (dir_exists E w _); eauto.
Qed.

(** A file that is there has its directory. *)
Lemma dir_exists_of_file (path content : string) (w : World) :
  fs w !! path = Some content -> dir_exists E w (filepath_Dir E path) = true.
Proof.
  intros Hf. unfold dir_exists. apply orb_true_iff; right.
  apply existsb_exists. exists (path, content). split.
  - apply list_elem_of_In, elem_of_map_to_list, Hf.
  - apply String.eqb_refl.
Qed.

Lemma os_MkdirAll_existing (dir : string) (w : World) :
  dir_exists E w dir = true -> os_MkdirAll E dir w = (Val None, w).
Proof. unfold os_MkdirAll. now intros ->. Qed.

(** What [os.MkdirAll] can do: fail and change nothing, or succeed and
    change at most the directories. *)
Lemma os_MkdirAll_cases (dir : string) (w : World) :
  (exists e, os_MkdirAll E dir w = (Val (Some e), w)) \/
  (exists ds, os_MkdirAll E dir w
              = (Val None, mkWorld (fs w) ds (ticks w) (requests w) (out w))).
Proof.
  unfold os_MkdirAll.
  destruct (dir_exists E w dir).
  - right. exists (dirs w). now destruct w.
  - destruct (mkdir_err E dir) as [e|]; [left|right]; eauto.
Qed.

(** *** [NewFixFileDownloader] writes at most the destination *)

Lemma NewFixFileDownloader_frame (url storePath : string) (resultLines : list string)
    (w : World) (q : string) :
  q <> storePath ->
  fs (snd (NewFixFileDownloader E url storePath resultLines w)) !! q = fs w !! q.
Proof.
  intros Hq. unfold NewFixFileDownloader.
  unfold bind at 1.
  destruct (FileOrDirExists_world storePath w) as [b ->].
  unfold bind at 1.
  assert (Hm : (exists e, (if negb b then os_MkdirAll E (filepath_Dir E storePath)
                           else ret None) w = (Val (Some e), w)) \/
               (exists ds, (if negb b then os_MkdirAll E (filepath_Dir E storePath)
                            else ret None) w
                  = (Val None, mkWorld (fs w) ds (ticks w) (requests w) (out w)))).
  { destruct b; cbn [negb].
    - right. exists (dirs w). now destruct w.
    - apply os_MkdirAll_cases. }
  destruct Hm as [[e ->]|[ds ->]]; [reflexivity|].
  unfold fixFetch, DownloadFile; unfold_monad; cbn [fs].
  repeat (case_match; simplify_eq; cbn [fs snd set_fs emit]);
    rewrite ?lookup_insert_ne, ?lookup_delete_ne by congruence; reflexivity.
Qed.

(** *** A destination that is already there *)

(** With the destination there, the directory needs no making. *)
Lemma NewFixFileDownloader_present (url storePath : string)
    (resultLines : list string) (w : World) (content : string) :
  fs w !! storePath = Some content ->
  NewFixFileDownloader E url storePath resultLines w
  = (content <- os_ReadFile storePath ;;
     match content with
     | Some content =>
         if String.eqb content marker1015
         then (os_Remove E storePath ;;; fixFetch E url storePath resultLines)
         else ret (resultLines, None)
     | None => fixFetch E url storePath resultLines
     end) w.
Proof.
  intros Hf. unfold NewFixFileDownloader. unfold bind at 1.
  destruct (FileOrDirExists_world storePath w) as [b ->].
  unfold bind at 1. destruct b; cbn [negb]; [reflexivity|].
  now rewrite (os_MkdirAll_existing _ _ (dir_exists_of_file _ _ _ Hf)).
Qed.

Lemma NewFixFileDownloader_skips (url storePath : string)
    (resultLines : list string) (w : World) (content : string) :
  fs w !! storePath = Some content ->
  content <> marker1015 ->
  NewFixFileDownloader E url storePath resultLines w = (Val (resultLines, None), w).
Proof.
  intros Hf Hc. rewrite (NewFixFileDownloader_present _ _ _ _ _ Hf).
  unfold_monad. rewrite Hf. apply String.eqb_neq in Hc. now rewrite Hc.
Qed.


(** C6.  When the destination file exists: with content other than the
    marker, [NewFixFileDownloader] returns [resultLines] as it got it and
    leaves the world as it was (no request, no output); with exactly the
    marker as content it removes the file and sends one request, so that
    afterwards the destination holds what this download wrote, or nothing
    (the removal's error, if any, is dropped by the code). *)
Theorem NewFixFileDownloader_existing_destination
    (url storePath : string) (resultLines : list string) (w : World)
    (content : string) :
  fs w !! storePath = Some content ->
  (content <> marker1015 ->
     NewFixFileDownloader E url storePath resultLines w = (Val (resultLines, None), w))
  /\
  (content = marker1015 ->
     let w' := snd (NewFixFileDownloader E url storePath resultLines w) in
     requests w' = S (requests w) /\
     (remove_err E storePath = None ->
        fs w' !! storePath =
          match http_get E (requests w) url, create_err E storePath with
          | DoFailed _, _ => None
          | _, Some _ => None
          | Body body, None => Some body
          | Truncated written _, None => Some written
          end)).
Proof.
  intros Hf.
  split.
  - now apply NewFixFileDownloader_skips.
  - intros ->. cbv zeta. rewrite (NewFixFileDownloader_present _ _ _ _ _ Hf).
    unfold fixFetch, DownloadFile. unfold_monad.
    rewrite Hf. cbn [String.eqb marker1015 Ascii.eqb Bool.eqb].
    split.
    + repeat (case_match; simplify_eq; cbn [requests snd set_fs emit]); reflexivity.
    + intros Hr. rewrite Hf, Hr. cbn [requests set_fs].
      destruct (http_get E (requests w) url), (create_err E storePath);
        cbn [fs snd set_fs emit];
        repeat (case_match; simplify_eq; cbn [fs snd set_fs emit]);
        rewrite ?lookup_insert_eq, ?lookup_delete_eq; reflexivity.
Qed.

(** *** A parent directory that cannot be made *)

Lemma dir_exists_emit (e : event) (w : World) (dir : string) :
  dir_exists E (emit e w) dir = dir_exists E w dir.
Proof. reflexivity. Qed.

Lemma FileOrDirExists_emit (e : event) (path : string) (w : World) :
  FileOrDirExists E path (emit e w)
  = (fst (FileOrDirExists E path w), emit e w).
Proof.
  unfold FileOrDirExists, os_ReadDir; unfold_monad.
  rewrite dir_exists_emit. now destruct (dir_exists E w _).
Qed.

Lemma os_MkdirAll_emit_error (e : event) (dir err : string) (w : World) :
  fst (os_MkdirAll E dir w) = Val (Some err) ->
  os_MkdirAll E dir (emit e w) = (Val (Some err), emit e w).
Proof.
  unfold os_MkdirAll. rewrite dir_exists_emit.
  destruct (dir_exists E w dir); [discriminate|].
  destruct (mkdir_err E dir); cbn [fst]; congruence.
Qed.

Lemma NewFixFileDownloader_no_directory
    (url storePath err : string) (resultLines : list string) (w : World) :
  fst (FileOrDirExists E storePath w) = Val false ->
  fst (os_MkdirAll E (filepath_Dir E storePath) w) = Val (Some err) ->
  NewFixFileDownloader E url storePath resultLines w
  = (Val ([], None), emit (mkdirFailure err) w).
Proof.
  intros He Hm. unfold NewFixFileDownloader.
  unfold bind at 1.
  destruct (FileOrDirExists_world storePath w) as [b Hb].
  rewrite Hb in He |- *. cbn [fst] in He. injection He as ->.
  unfold bind at 1. cbn [negb].
  destruct (os_MkdirAll_cases (filepath_Dir E storePath) w) as [[e Hc]|[ds Hc]];
    rewrite Hc in Hm |- *; cbn [fst] in Hm; [|discriminate].
  injection Hm as ->. reflexivity.
Qed.

(** C10.  When the destination is not there and its parent directory
    cannot be made, [NewFixFileDownloader] returns a nil slice and a nil
    error, whatever [resultLines] held; and the retry loop of
    [FixBrokenDownloadFile], at such a line, ends after this one attempt
    with an empty [resultContainer] and the line's index as
    [lastSuccessIndex], whatever number of retries is left: no request is
    sent and only the two log lines are written. *)
Theorem mkdir_failure_empties_accumulator
    (url storePath err brokenLine : string) (resultLines : list string)
    (maxRetry index i lastSuccessIndex : Z) (n : nat) (w : World) :
  fst (FileOrDirExists E storePath w) = Val false ->
  fst (os_MkdirAll E (filepath_Dir E storePath) w) = Val (Some err) ->
  Strings.Split brokenLine "|" !! 1%nat = Some storePath ->
  Strings.Split brokenLine "|" !! 2%nat = Some url ->
  index <> lastSuccessIndex ->
  NewFixFileDownloader E url storePath resultLines w
    = (Val ([], None), emit (mkdirFailure err) w)
  /\
  retryLine E maxRetry index brokenLine (S n) i (resultLines, lastSuccessIndex) w
    = (Val ([], index),
       emit (mkdirFailure err)
         (emit (LogInfo ("index: " ++ pretty index ++ ",line: " ++ brokenLine) []) w)).
Proof.
  intros He Hm H1 H2 Hi. split.
  - now apply NewFixFileDownloader_no_directory.
  - cbn [retryLine]. apply Z.eqb_neq in Hi. rewrite Hi.
    unfold index_. rewrite H1, H2.
    unfold bind at 1. unfold log_Info at 1, modify at 1.
    unfold bind at 1, ret at 1. unfold bind at 1, ret at 1. unfold bind at 1.
    rewrite (NewFixFileDownloader_no_directory url storePath err).
    + reflexivity.
    + now rewrite FileOrDirExists_emit.
    + now rewrite (os_MkdirAll_emit_error _ _ err).
Qed.

(** *** Whether the ledger has entries *)

(** C9.  [CheckIfNeedFixBrokenDownloadFile] returns true exactly when the
    ledger file is there and one of its lines is not empty once CR and LF
    are trimmed from it, and it leaves every file as it was. *)
Theorem CheckIfNeedFixBrokenDownloadFile_iff_pending_line (w : World) :
  exists (need : bool) (w' : World),
    CheckIfNeedFixBrokenDownloadFile w = (Val need, w') /\
    fs w' = fs w /\
    (need = true <->
     exists content line : string,
       fs w !! FailedDownloadFileName = Some content /\
       In line (Lines.linesOf content) /\
       Strings.Trim line crlf <> EmptyString).
Proof.
  unfold CheckIfNeedFixBrokenDownloadFile. unfold_monad.
  destruct (fs w !! FailedDownloadFileName) as [content|] eqn:Hl.
  - eexists _, w. split; [reflexivity|]. split; [reflexivity|].
    rewrite LinesFacts.readResultLine_nonempty, <- LinesFacts.linesOf_hasText.
    rewrite existsb_exists. split.
    + intros (line & Hin & Ht). exists content, line. repeat split; try assumption.
      intros He. apply LinesFacts.Trim_empty in He. congruence.
    + intros (content' & line & Hc & Hin & Ht). injection Hc as <-.
      exists line. split; [assumption|].
      destruct (Lines.hasText line) eqn:Hh; [reflexivity|].
      now apply LinesFacts.Trim_empty in Hh.
  - eexists false, _. split; [reflexivity|]. split; [reflexivity|].
    split; [discriminate|]. intros (content & line & Hc & _). discriminate.
Qed.

(** ** The reconciliation pass *)

(** A computation that returns a value has run its first part to a
    value. *)
Lemma bind_Val {A B : Type} (m : M A) (k : A -> M B) (w w' : World) (b : B) :
  bind m k w = (Val b, w') ->
  exists (a : A) (w1 : World), m w = (Val a, w1) /\ k a w1 = (Val b, w').
Proof.
  unfold bind. destruct (m w) as [[a|msg] w1]; [eauto|discriminate].
Qed.

Lemma keeps_ret {A : Type} (q c : string) (a : A) : keeps q c (ret a).
Proof. now intros w. Qed.

Lemma keeps_panic {A : Type} (q c msg : string) : keeps q c (@panic A msg).
Proof. now intros w. Qed.

Lemma keeps_bind {A B : Type} (q c : string) (m : M A) (k : A -> M B) :
  keeps q c m -> (forall a, keeps q c (k a)) -> keeps q c (bind m k).
Proof.
  intros Hm Hk w Hw. unfold bind. specialize (Hm w Hw).
  destruct (m w) as [[a|msg] w1]; cbn [snd] in Hm |- *; [now apply Hk|assumption].
Qed.

Lemma keeps_emit (q c : string) (e : event) : keeps q c (modify (emit e)).
Proof. now intros w. Qed.

Lemma keeps_Send (q c message : string) : keeps q c (Send E message).
Proof.
  unfold Send. destruct (String.eqb _ _); [apply keeps_ret|].
  apply keeps_bind; [apply keeps_emit|intros; apply keeps_ret].
Qed.

Lemma keeps_index (q c : string) (s : list string) (i : nat) : keeps q c (index_ s i).
Proof. unfold index_. destruct (s !! i); [apply keeps_ret|apply keeps_panic]. Qed.

Lemma keeps_NewFixFileDownloader (q c url storePath : string)
    (resultLines : list string) :
  c <> marker1015 -> keeps q c (NewFixFileDownloader E url storePath resultLines).
Proof.
  intros Hc w Hw. destruct (decide (q = storePath)) as [->|Hq].
  - now rewrite (NewFixFileDownloader_skips _ _ _ _ _ Hw Hc).
  - now rewrite NewFixFileDownloader_frame.
Qed.

Create HintDb keeps.
#[local] Hint Resolve keeps_ret keeps_panic keeps_emit keeps_Send keeps_index : keeps.

Lemma keeps_retryLine (q c : string) (maxRetry index : Z) (brokenLine : string) :
  c <> marker1015 ->
  forall (n : nat) (i : Z) (st : list string * Z),
    keeps q c (retryLine E maxRetry index brokenLine n i st).
Proof.
  intros Hc. induction n as [|n IH]; intros i [resultContainer lastSuccessIndex].
  - apply keeps_ret.
  - cbn [retryLine]. destruct (index =? lastSuccessIndex); [apply keeps_ret|].
    apply keeps_bind; [apply keeps_emit|intros _].
    apply keeps_bind; [apply keeps_index|intros url].
    apply keeps_bind; [apply keeps_index|intros storePath].
    apply keeps_bind; [now apply keeps_NewFixFileDownloader|intros downloader].
    destruct (_ <=? 0); [apply keeps_ret|].
    apply keeps_bind; [apply keeps_Send|intros serr].
    apply keeps_bind; [destruct serr; auto with keeps; apply keeps_emit|intros _].
    apply keeps_bind; [apply keeps_emit|intros _]. apply IH.
Qed.

Lemma keeps_replay (q c : string) (maxRetry : Z) :
  c <> marker1015 ->
  forall (resultLine : list string) (index : Z) (st : list string * Z),
    keeps q c (replay E maxRetry resultLine index st).
Proof.
  intros Hc. induction resultLine as [|brokenLine rest IH]; intros index st.
  - apply keeps_ret.
  - cbn [replay]. apply keeps_bind; [now apply keeps_retryLine|intros st'; apply IH].
Qed.

(** A ledger that holds just the marker has one line, without separator:
    the replay of this snapshot does nothing or panics at once. *)
Lemma replay_marker_ledger (maxRetry : Z) (w w' : World) (st : list string * Z) :
  replay E maxRetry (readResultLine marker1015) 0 ([], -1) w = (Val st, w') -> w' = w.
Proof.
  change (readResultLine marker1015) with [marker1015].
  cbn [replay]. destruct (Z.to_nat maxRetry) as [|n].
  - cbn [retryLine]. unfold_monad. congruence.
  - cbn [retryLine]. change (0 =? -1) with false. cbv iota.
    unfold bind at 1. unfold bind at 1. unfold log_Info at 1, modify at 1.
    change (Strings.Split marker1015 "|") with [marker1015].
    unfold index_ at 1. cbn [lookup list_lookup]. unfold panic at 1.
    unfold bind at 1. discriminate.
Qed.

(** The replay of a snapshot of the ledger leaves the ledger as it is. *)
Lemma replay_keeps_ledger (maxRetry : Z) (content : string) (w w' : World)
    (st : list string * Z) :
  fs w !! FailedDownloadFileName = Some content ->
  replay E maxRetry (readResultLine content) 0 ([], -1) w = (Val st, w') ->
  fs w' !! FailedDownloadFileName = Some content.
Proof.
  intros Hw Hr. destruct (decide (content = marker1015)) as [->|Hc].
  - now rewrite (replay_marker_ledger _ _ _ _ Hr).
  - pose proof (keeps_replay _ _ maxRetry Hc (readResultLine content) 0 ([], -1) w Hw)
      as Hk.
    now rewrite Hr in Hk.
Qed.

(** [CopyFile] never panics and writes at most its destination; when it
    succeeds the source is there and the destination holds its content. *)
Lemma CopyFile_frame (src dst q : string) (w : World) :
  q <> dst -> fs (snd (CopyFile E src dst w)) !! q = fs w !! q.
Proof.
  intros Hq. unfold CopyFile. unfold_monad.
  repeat (case_match; simplify_eq; cbn [fs snd set_fs]);
    rewrite ?lookup_insert_ne by congruence; reflexivity.
Qed.

Lemma CopyFile_done (src dst : string) (w w' : World) :
  CopyFile E src dst w = (Val None, w') ->
  exists content, fs w !! src = Some content /\ fs w' !! dst = Some content.
Proof.
  unfold CopyFile. unfold_monad. intros H.
  destruct (fs w !! src) as [content|]; [|discriminate].
  exists content. split; [reflexivity|].
  repeat (case_match; simplify_eq; cbn [fs snd set_fs]).
  now rewrite lookup_insert_eq.
Qed.

(** C3.  When [FixBrokenDownloadFile] returns because the snapshot could
    not be made, or because the snapshot could not be deleted after the
    replay, the ledger file is as it was before the call: it has not been
    truncated and none of its bytes has changed. *)
Theorem FixBrokenDownloadFile_abort_keeps_ledger
    (maxRetry : Z) (w w' : World) (r : pass_end) :
  FixBrokenDownloadFile E maxRetry w = (Val r, w') ->
  r = CopyAborted \/ r = RemoveAborted ->
  fs w' !! FailedDownloadFileName = fs w !! FailedDownloadFileName.
Proof.
  intros H Hr. unfold FixBrokenDownloadFile in H.
  apply bind_Val in H as (? & w1 & Hlog & H).
  injection Hlog as _ <-.
  apply bind_Val in H as (err & w2 & Hcopy & H).
  assert (Hframe : fs w2 !! FailedDownloadFileName = fs w !! FailedDownloadFileName).
  { pose proof (CopyFile_frame FailedDownloadFileName (FailedDownloadFileName ++ ".tmp")
                  FailedDownloadFileName (emit (LogInfo "正在自动处理下载失败的媒体文件,请稍后..." []) w))
      as Hf.
    rewrite Hcopy in Hf. now apply Hf. }
  destruct err as [e|].
  - apply bind_Val in H as (? & w3 & Hl & H). injection Hl as _ <-.
    injection H as _ <-. exact Hframe.
  - apply CopyFile_done in Hcopy as (content & Hsrc & Hdst).
    cbn [fs emit] in Hsrc. rewrite Hsrc in Hframe |- *.
    apply bind_Val in H as (fi & w3 & Hopen & H).
    injection Hopen as <- <-. rewrite Hdst in H.
    apply bind_Val in H as (st & w4 & Hreplay & H).
    apply (replay_keeps_ledger _ _ _ _ _ Hframe) in Hreplay.
    apply bind_Val in H as (err2 & w5 & Hrm & H).
    unfold os_Remove in Hrm.
    destruct (fs w4 !! (FailedDownloadFileName ++ ".tmp")) eqn:Htmp.
    + destruct (remove_err E _).
      * injection Hrm as <- <-.
        apply bind_Val in H as (? & w6 & Hl & H). injection Hl as _ <-.
        injection H as _ <-. exact Hreplay.
      * injection Hrm as <- <-.
        apply bind_Val in H as (err & w6 & _ & H).
        destruct err.
        -- apply bind_Val in H as (? & w7 & _ & H). injection H as <- _.
           destruct Hr; discriminate.
        -- apply bind_Val in H as (? & w7 & _ & H). injection H as <- _.
           destruct Hr; discriminate.
    + injection Hrm as <- <-.
      apply bind_Val in H as (? & w6 & Hl & H). injection Hl as _ <-.
      injection H as _ <-. exact Hreplay.
Qed.

(** Whenever the pass runs to its end the ledger is empty, whatever the
    replay has gathered. *)
Lemma FixBrokenDownloadFile_completed_empties_ledger (maxRetry : Z) (w w' : World) :
  FixBrokenDownloadFile E maxRetry w = (Val Completed, w') ->
  fs w' !! FailedDownloadFileName = Some EmptyString.
Proof.
  intros H. unfold FixBrokenDownloadFile in H.
  apply bind_Val in H as (? & w1 & Hlog & H).
  injection Hlog as _ <-.
  apply bind_Val in H as (err & w2 & Hcopy & H).
  assert (Hframe : fs w2 !! FailedDownloadFileName = fs w !! FailedDownloadFileName).
  { pose proof (CopyFile_frame FailedDownloadFileName (FailedDownloadFileName ++ ".tmp")
                  FailedDownloadFileName (emit (LogInfo "正在自动处理下载失败的媒体文件,请稍后..." []) w))
      as Hf.
    rewrite Hcopy in Hf. now apply Hf. }
  destruct err as [e|].
  { apply bind_Val in H as (? & w3 & _ & H). discriminate. }
  apply CopyFile_done in Hcopy as (content & Hsrc & Hdst).
  cbn [fs emit] in Hsrc. rewrite Hsrc in Hframe.
  apply bind_Val in H as (fi & w3 & Hopen & H).
  injection Hopen as <- <-. rewrite Hdst in H.
  apply bind_Val in H as (st & w4 & Hreplay & H).
  apply (replay_keeps_ledger _ _ _ _ _ Hframe) in Hreplay.
  apply bind_Val in H as (err2 & w5 & Hrm & H).
  assert (Hw5 : fs w5 !! FailedDownloadFileName = Some content).
  { unfold os_Remove in Hrm.
    destruct (fs w4 !! (FailedDownloadFileName ++ ".tmp")); [|congruence].
    destruct (remove_err E _); [congruence|].
    injection Hrm as _ <-. cbn [fs set_fs]. now rewrite lookup_delete_ne. }
  destruct err2 as [e2|].
  { apply bind_Val in H as (? & w6 & _ & H). discriminate. }
  apply bind_Val in H as (err & w6 & Htr & H).
  unfold FailedDownloadFile_Truncate0 in Htr.
  destruct (truncate_err E).
  { injection Htr as <- _. apply bind_Val in H as (? & w7 & _ & H). discriminate. }
  apply bind_Val in Htr as (? & w5' & Hmod & Htr).
  injection Hmod as _ <-. injection Htr as <- <-.
  apply bind_Val in H as (? & w7 & Hl & H). injection Hl as _ <-.
  injection H as <-. cbn [fs emit set_fs].
  now rewrite lookup_alter_eq, Hw5.
Qed.

(** *** Entries whose every attempt fails *)




Lemma bind_step {A B : Type} (m : M A) (k : A -> M B) (w w1 : World) (a : A) :
  m w = (Val a, w1) -> bind m k w = k a w1.
Proof. unfold bind. now intros ->. Qed.

Lemma field_lookup (line : string) (i : nat) :
  (i < length (Strings.Split line "|"))%nat ->
  Strings.Split line "|" !! i = Some (field line i).
Proof.
  intros Hi. unfold field.
  destruct (lookup_lt_is_Some_2 _ _ Hi) as [x ->]. reflexivity.
Qed.





(** *** An attempt that resolves *)

Lemma NewFixFileDownloader_resolves (url storePath : string)
    (resultLines : list string) (w : World) :
  resolvesAt E w url storePath ->
  exists w', NewFixFileDownloader E url storePath resultLines w
             = (Val (resultLines, None), w').
Proof.
  unfold resolvesAt. destruct (fs w !! storePath) as [content|] eqn:Hf.
  - intros Hc. exists w. now apply (NewFixFileDownloader_skips _ _ _ _ content).
  - intros (Hmk & Hcreate & body & Hget & Hbody).
    unfold NewFixFileDownloader.
    unfold bind at 1. destruct (FileOrDirExists_world storePath w) as [b ->].
    unfold bind at 1.
    assert (Hm : exists ds, (if negb b then os_MkdirAll E (filepath_Dir E storePath)
                             else ret None) w
                   = (Val None, mkWorld (fs w) ds (ticks w) (requests w) (out w))).
    { destruct b; cbn [negb].
      - exists (dirs w). now destruct w.
      - destruct (os_MkdirAll_cases (filepath_Dir E storePath) w) as [[e He]|Hd];
          [|exact Hd].
        unfold os_MkdirAll in He. rewrite Hmk in He.
        destruct (dir_exists E w _); discriminate. }
    destruct Hm as [ds ->].
    unfold fixFetch, DownloadFile. unfold_monad. cbn [fs requests]. rewrite Hf.
    cbn [requests]. rewrite Hget, Hcreate. cbv beta iota. cbn [fs set_fs].
    rewrite lookup_insert_eq.
    rewrite bool_decide_eq_false_2 by congruence.
    eexists. reflexivity.
Qed.

(** An attempt that resolves the entry returns the failure list as it
    got it: it adds no record, and the records of
    earlier failed attempts stay.  When the list is empty after such an
    attempt, the retry loop ends for this entry with the entry's index as
    [lastSuccessIndex], whatever number of retries is left.  In the
    two-entry scenario ([a.mp3] fails twice and is then served, [b.mp3]
    fails three times, [maxRetry = 3]) the list ends with the two records
    of [a.mp3] followed by the three of [b.mp3]. *)
Theorem resolving_attempt_adds_no_record
    (url storePath brokenLine : string) (resultLines : list string)
    (maxRetry index i lastSuccessIndex : Z) (w : World) :
  resolvesAt E w url storePath ->
  Strings.Split brokenLine "|" !! 1%nat = Some storePath ->
  Strings.Split brokenLine "|" !! 2%nat = Some url ->
  index <> lastSuccessIndex ->
  (exists w', NewFixFileDownloader E url storePath resultLines w
              = (Val (resultLines, None), w'))
  /\
  (exists w', forall n : nat,
      retryLine E maxRetry index brokenLine (S n) i ([], lastSuccessIndex) w
      = (Val ([], index), w'))
  /\
  fst (replay Runs.envAB 3 [Sample.lineA; Sample.lineB] 0 ([], -1)
         (Runs.snapshotted Runs.envAB
            (Sample.world (Sample.lineA ++ nl ++ Sample.lineB ++ nl))))
  = Val (["T0|/out/a.mp3|http://x/a.mp3"; "T1|/out/a.mp3|http://x/a.mp3";
          "T2|/out/b.mp3|http://x/b.mp3"; "T3|/out/b.mp3|http://x/b.mp3";
          "T4|/out/b.mp3|http://x/b.mp3"], -1).
Proof.
  intros Hres H1 H2 Hidx. split; [now apply NewFixFileDownloader_resolves|].
  split; [|vm_compute; reflexivity].
  destruct (NewFixFileDownloader_resolves url storePath []
              (emit (LogInfo ("index: " ++ pretty index ++ ",line: " ++ brokenLine) []) w)
              Hres) as (w' & Hcall).
  exists w'. intros n. cbn [retryLine].
  apply Z.eqb_neq in Hidx. rewrite Hidx.
  erewrite bind_step by reflexivity.
  unfold index_. rewrite H1, H2.
  do 2 (erewrite bind_step by reflexivity).
  rewrite (bind_step _ _ _ _ _ Hcall). reflexivity.
Qed.

(** *** The two aborts of the pass, by their cause *)

Lemma FixBrokenDownloadFile_copy_error (maxRetry : Z) (w w1 : World) (e : string) :
  CopyFile E FailedDownloadFileName (FailedDownloadFileName ++ ".tmp")
    (emit (LogInfo "正在自动处理下载失败的媒体文件,请稍后..." []) w) = (Val (Some e), w1) ->
  fst (FixBrokenDownloadFile E maxRetry w) = Val CopyAborted.
Proof.
  intros Hcopy. unfold FixBrokenDownloadFile.
  erewrite bind_step by reflexivity.
  now rewrite (bind_step _ _ _ _ _ Hcopy).
Qed.

Lemma FixBrokenDownloadFile_remove_error (maxRetry : Z) (w w' : World) (r : pass_end) :
  remove_err E (FailedDownloadFileName ++ ".tmp") <> None ->
  FixBrokenDownloadFile E maxRetry w = (Val r, w') ->
  r = CopyAborted \/ r = OpenAborted \/ r = RemoveAborted.
Proof.
  intros Hdenied H. unfold FixBrokenDownloadFile in H.
  apply bind_Val in H as (? & w1 & _ & H).
  apply bind_Val in H as (err & w2 & _ & H).
  destruct err as [e|].
  { apply bind_Val in H as (? & w3 & _ & H). injection H as <- _. now left. }
  apply bind_Val in H as (fi & w3 & _ & H).
  destruct fi as [content|].
  2:{ apply bind_Val in H as (? & w4 & _ & H). injection H as <- _. right; now left. }
  apply bind_Val in H as (st & w4 & _ & H).
  apply bind_Val in H as (err2 & w5 & Hrm & H).
  unfold os_Remove in Hrm.
  destruct (fs w4 !! _); [destruct (remove_err E _); [|contradiction]|];
    injection Hrm as <- <-;
    apply bind_Val in H as (? & w6 & _ & H); injection H as <- _; right; now right.
Qed.

End Downloaders.

(** ** Runs of the code on concrete ledgers *)

Import Sample Runs.

(** The worked example of a ledger line. *)
Example Split_ledger_line :
  Strings.Split lineA "|" = ["2024-01-01 00:00:00"; "/out/a.mp3"; "http://x/a.mp3"].
Proof. reflexivity. Qed.

Example ReadLines_line_ends :
  Bufio.ReadLines ("ab" ++ crlf ++ "cd" ++ nl ++ nl ++ "e") = ["ab"; "cd"; ""; "e"].
Proof. reflexivity. Qed.

(** C1.  One entry, the network down, [maxRetry = 1]: the replay gathers
    one record for the entry that still fails, the pass runs to its end,
    and the ledger is left empty: the record is written nowhere. *)
Theorem FixBrokenDownloadFile_drops_surviving_failures :
  let ledger := lineA ++ nl in
  fst (replay envDown 1 (readResultLine ledger) 0 ([], -1)
         (snapshotted envDown (world ledger)))
    = Val (["T0|/out/a.mp3|http://x/a.mp3"], -1)
  /\ fst (FixBrokenDownloadFile envDown 1 (world ledger)) = Val Completed
  /\ fs (snd (FixBrokenDownloadFile envDown 1 (world ledger))) !! FailedDownloadFileName
     = Some "".
Proof. vm_compute. repeat split. Qed.



Lemma FixBrokenDownloadFile_abort_keeps_ledger_witness :
  let w := world (lineA ++ nl) in
  let w' := snd (FixBrokenDownloadFile envStuck 1 w) in
  FixBrokenDownloadFile envStuck 1 w = (Val RemoveAborted, w') /\
  fs w' !! FailedDownloadFileName = fs w !! FailedDownloadFileName.
Proof.
  assert (Hrun : FixBrokenDownloadFile envStuck 1 (world (lineA ++ nl))
                 = (Val RemoveAborted,
                    snd (FixBrokenDownloadFile envStuck 1 (world (lineA ++ nl)))))
    by (vm_compute; reflexivity).
  split; [exact Hrun|].
  exact (FixBrokenDownloadFile_abort_keeps_ledger envStuck 1 _ _ RemoveAborted Hrun
           (or_intror eq_refl)).
Defined.

(** C4.  A retry whose copy breaks after three bytes: [NewFixFileDownloader]
    records the failure and returns with the three bytes still at the
    destination; the next retry of the entry then finds a file that is
    not the marker and takes it for a finished download. *)
Theorem NewFixFileDownloader_leaves_partial_file :
  let r := NewFixFileDownloader envCut "http://x/a.mp3" "/out/a.mp3" [] (world "") in
  fst r = Val (["T0|/out/a.mp3|http://x/a.mp3"], None)
  /\ fs (snd r) !! "/out/a.mp3" = Some "par"
  /\ NewFixFileDownloader envCut "http://x/a.mp3" "/out/a.mp3"
       ["T0|/out/a.mp3|http://x/a.mp3"] (snd r)
     = (Val (["T0|/out/a.mp3|http://x/a.mp3"], None), snd r).
Proof. vm_compute. repeat split. Qed.

(** The first pass, for the same failure, does remove the fragment. *)
Example NewFileDownloader_removes_partial_file :
  let r := NewFileDownloader envCut "http://x/a.mp3" "/out" "a.mp3" (world "") in
  fs (snd r) !! "/out/a.mp3" = None
  /\ fs (snd r) !! FailedDownloadFileName = Some ("T0|/out/a.mp3|http://x/a.mp3" ++ nl).
Proof. vm_compute. repeat split. Qed.

(** C5.  A ledger whose first line has no separator: the pass panics at
    that line, before any request, and the well-formed line after it is
    never replayed. *)
Theorem FixBrokenDownloadFile_panics_on_malformed_line :
  let r := FixBrokenDownloadFile envDown 1 (world ("garbage" ++ nl ++ lineA ++ nl)) in
  fst r = Panic "runtime error: index out of range [2] with length 1"
  /\ requests (snd r) = 0%nat
  /\ attempts 1 lineA (snd r) = 0%nat.
Proof. vm_compute. repeat split. Qed.

Lemma NewFixFileDownloader_existing_destination_witness :
  let w := mkWorld {[ "/out/a.mp3" := "AUDIO" ]} ∅ 0 0 [] in
  fs w !! "/out/a.mp3" = Some "AUDIO" /\
  ("AUDIO" <> marker1015 ->
   NewFixFileDownloader envDown "http://x/a.mp3" "/out/a.mp3" ["earlier"] w
   = (Val (["earlier"], None), w)).
Proof.
  assert (Hf : fs (mkWorld {[ "/out/a.mp3" := "AUDIO" ]} ∅ 0 0 []) !! "/out/a.mp3"
               = Some "AUDIO") by reflexivity.
  split; [exact Hf|].
  exact (proj1 (NewFixFileDownloader_existing_destination envDown "http://x/a.mp3"
                  "/out/a.mp3" ["earlier"] _ "AUDIO" Hf)).
Defined.

(** C7.  The two-entry scenario with [maxRetry = 3]: [a.mp3] is served at
    its third attempt, and the two records of its failed attempts stay in
    the list, before the three of [b.mp3].  And an entry served at its
    first attempt, after an entry that failed three times, is attempted
    all three times, each attempt followed by the log line of a failed
    retry: six such lines for three failures. *)
Theorem replay_keeps_records_of_resolved_entry :
  let ledger := lineA ++ nl ++ lineB ++ nl in
  let r := replay envAB 3 (readResultLine ledger) 0 ([], -1)
             (snapshotted envAB (world ledger)) in
  let ledger' := lineB ++ nl ++ lineA ++ nl in
  let r' := replay envBA 3 (readResultLine ledger') 0 ([], -1)
              (snapshotted envBA (world ledger')) in
  fst r = Val (["T0|/out/a.mp3|http://x/a.mp3"; "T1|/out/a.mp3|http://x/a.mp3";
                "T2|/out/b.mp3|http://x/b.mp3"; "T3|/out/b.mp3|http://x/b.mp3";
                "T4|/out/b.mp3|http://x/b.mp3"], -1)
  /\ match fst r with
     | Val (acc, _) => existsb (fun record => Strings.Contains record "/out/a.mp3") acc
     | Panic _ => false
     end = true
  /\ fs (snd r) !! "/out/a.mp3" = Some "AUDIO"
  /\ fs (snd r') !! "/out/a.mp3" = Some "AUDIO"
  /\ attempts 1 lineA (snd r') = 3%nat
  /\ requests (snd r') = 4%nat
  /\ retryNotices (snd r') = 6%nat.
Proof. vm_compute. repeat split. Qed.

Lemma mkdir_failure_empties_accumulator_witness :
  let w := world (lineA ++ nl) in
  NewFixFileDownloader envNoDir "http://x/a.mp3" "/out/a.mp3" ["earlier"] w
    = (Val ([], None), emit (mkdirFailure "mkdir /out: permission denied") w)
  /\
  retryLine envNoDir 3 0 lineA (S 2) 0 (["earlier"], -1) w
    = (Val ([], 0),
       emit (mkdirFailure "mkdir /out: permission denied")
         (emit (LogInfo ("index: " ++ pretty 0 ++ ",line: " ++ lineA) []) w)).
Proof.
  apply (mkdir_failure_empties_accumulator envNoDir "http://x/a.mp3" "/out/a.mp3"
           "mkdir /out: permission denied" lineA ["earlier"] 3 0 0 (-1) 2).
  - reflexivity.
  - reflexivity.
  - reflexivity.
  - reflexivity.
  - lia.
Defined.

Lemma resolving_attempt_adds_no_record_witness :
  let w := mkWorld {[ "/out/a.mp3" := "AUDIO" ]} ∅ 0 0 [] in
  resolvesAt envDown w "http://x/a.mp3" "/out/a.mp3" /\
  (exists w', NewFixFileDownloader envDown "http://x/a.mp3" "/out/a.mp3" ["earlier"] w
              = (Val (["earlier"], None), w'))
  /\
  (exists w', forall n : nat,
      retryLine envDown 3 0 lineA (S n) 0 ([], -1) w = (Val ([], 0), w'))
  /\
  fst (replay envAB 3 [lineA; lineB] 0 ([], -1)
         (snapshotted envAB (world (lineA ++ nl ++ lineB ++ nl))))
  = Val (["T0|/out/a.mp3|http://x/a.mp3"; "T1|/out/a.mp3|http://x/a.mp3";
          "T2|/out/b.mp3|http://x/b.mp3"; "T3|/out/b.mp3|http://x/b.mp3";
          "T4|/out/b.mp3|http://x/b.mp3"], -1).
Proof.
  assert (Hres : resolvesAt envDown (mkWorld {[ "/out/a.mp3" := "AUDIO" ]} ∅ 0 0 [])
                   "http://x/a.mp3" "/out/a.mp3")
    by (vm_compute; discriminate).
  split; [exact Hres|].
  apply (resolving_attempt_adds_no_record envDown "http://x/a.mp3" "/out/a.mp3" lineA
           ["earlier"] 3 0 0 (-1) _ Hres).
  - reflexivity.
  - reflexivity.
  - lia.
Defined.

(** ** The pure helpers *)

Section Helpers.

Lemma wrap64_small (z : Z) : - 2 ^ 63 <= z < 2 ^ 63 -> wrap64 z = z.
Proof. intros Hz. unfold wrap64. rewrite Z.mod_small; lia. Qed.

Lemma CalculateMaxPage_pages (totalCount pageSize : Z) :
  0 < totalCount < 2 ^ 63 ->
  0 < pageSize < 2 ^ 63 ->
  exists r : Z,
    CalculateMaxPage totalCount pageSize = Val r /\
    (r - 1) * pageSize < totalCount <= r * pageSize.
Proof.
  intros Ht Hp. unfold CalculateMaxPage.
  replace (totalCount <? 0) with false by (symmetry; apply Z.ltb_ge; lia).
  replace (pageSize <=? 0) with false by (symmetry; apply Z.leb_gt; lia).
  replace (totalCount =? 0) with false by (symmetry; apply Z.eqb_neq; lia).
  cbn [orb]. cbv zeta.
  pose proof (Z.quot_rem' totalCount pageSize) as Hqr.
  pose proof (Z.rem_bound_pos totalCount pageSize ltac:(lia) ltac:(lia)) as Hr.
  pose proof (Z.quot_pos totalCount pageSize ltac:(lia) ltac:(lia)) as Hq.
  destruct (Z.eqb_spec (Z.rem totalCount pageSize) 0) as [H0|H0]; cbn [negb].
  - eexists. split; [reflexivity|]. nia.
  - rewrite wrap64_small by nia.
    eexists. split; [reflexivity|]. nia.
Qed.

(** X1.  For a positive total and a positive page size, both in the range
    of [int], [CalculateMaxPage] returns the number of pages needed: the
    least [r] with [totalCount <= r * pageSize]. *)
Theorem CalculateMaxPage_ceiling (totalCount pageSize : Z) :
  0 < totalCount < 2 ^ 63 ->
  0 < pageSize < 2 ^ 63 ->
  exists r : Z,
    CalculateMaxPage totalCount pageSize = Val r /\
    (r - 1) * pageSize < totalCount <= r * pageSize /\
    (forall r', totalCount <= r' * pageSize -> r <= r').
Proof.
  intros Ht Hp.
  destruct (CalculateMaxPage_pages totalCount pageSize Ht Hp) as (r & Hr & Hb).
  exists r. split; [exact Hr|]. split; [exact Hb|]. intros r' Hr'. nia.
Qed.

(** X2.  [CalculateMaxPage] panics exactly for a negative total or a page
    size that is not positive; otherwise (within the range of [int]) it
    returns at least one page, and one page for an empty total. *)
Theorem CalculateMaxPage_panics_or_positive (totalCount pageSize : Z) :
  - 2 ^ 63 <= totalCount < 2 ^ 63 ->
  - 2 ^ 63 <= pageSize < 2 ^ 63 ->
  ((exists msg, CalculateMaxPage totalCount pageSize = Panic msg)
   <-> totalCount < 0 \/ pageSize <= 0)
  /\ (forall r, CalculateMaxPage totalCount pageSize = Val r -> 1 <= r)
  /\ (0 < pageSize -> CalculateMaxPage 0 pageSize = Val 1).
Proof.
  intros Ht Hp. split; [|split].
  - unfold CalculateMaxPage.
    destruct (Z.ltb_spec totalCount 0), (Z.leb_spec pageSize 0); cbn [orb].
    1-3: split; [lia|eauto].
    split; [|lia]. intros [msg H1]. cbv zeta in H1.
    repeat case_match; discriminate.
  - intros r Hr.
    destruct (Z.ltb_spec totalCount 0) as [Hneg|Hnn].
    { unfold CalculateMaxPage in Hr. apply Z.ltb_lt in Hneg. rewrite Hneg in Hr.
      discriminate. }
    destruct (Z.leb_spec pageSize 0) as [Hnp|Hpos].
    { unfold CalculateMaxPage in Hr. apply Z.leb_le in Hnp. rewrite Hnp, orb_true_r in Hr.
      discriminate. }
    destruct (Z.eq_dec totalCount 0) as [->|Hnz].
    + unfold CalculateMaxPage in Hr. apply Z.leb_gt in Hpos. rewrite Hpos in Hr.
      cbn in Hr. injection Hr as <-. lia.
    + destruct (CalculateMaxPage_pages totalCount pageSize ltac:(lia) ltac:(lia))
        as (r' & Hr' & Hb).
      rewrite Hr' in Hr. injection Hr as <-. nia.
  - intros Hpos. unfold CalculateMaxPage. apply Z.leb_gt in Hpos. now rewrite Hpos.
Qed.

Lemma length_append (a b : string) :
  String.length (a ++ b) = (String.length a + String.length b)%nat.
Proof.
  induction a as [|c a IH]; [reflexivity|].
  simpl. now rewrite IH.
Qed.

Lemma length_writeTimes (n : nat) (m result : string) :
  String.length (writeTimes n m result)
  = (String.length result + n * String.length m)%nat.
Proof.
  revert result. induction n as [|n IH]; intros result; cbn [writeTimes].
  - lia.
  - rewrite IH, length_append. lia.
Qed.

(** The length of what [MosaicStr] returns. *)
Lemma MosaicStr_length (inputStr mosaicStrTmp : string) :
  String.length (MosaicStr inputStr mosaicStrTmp)
  = (String.length inputStr
     * String.length (if String.eqb mosaicStrTmp "" then "*" else mosaicStrTmp))%nat.
Proof. unfold MosaicStr. now rewrite length_writeTimes. Qed.

Lemma append_empty_r (s : string) : s ++ "" = s.
Proof.
  induction s as [|c s IH]; [reflexivity|].
  change (String c s ++ "") with (String c (s ++ "")). now rewrite IH.
Qed.

Lemma append_assoc (a b c : string) : (a ++ b) ++ c = a ++ (b ++ c).
Proof.
  induction a as [|x a IH]; [reflexivity|].
  change ((String x a ++ b) ++ c) with (String x ((a ++ b) ++ c)). now rewrite IH.
Qed.

Lemma concat_cons (m : string) (l : list string) :
  String.concat "" (m :: l) = m ++ String.concat "" l.
Proof.
  destruct l as [|x l]; [|reflexivity].
  change (String.concat "" [m]) with m. change (String.concat "" []) with "".
  now rewrite append_empty_r.
Qed.

Lemma writeTimes_concat (n : nat) (m result : string) :
  writeTimes n m result = result ++ String.concat "" (repeat m n).
Proof.
  revert result. induction n as [|n IH]; intros result; cbn [writeTimes repeat].
  - change (String.concat "" []) with "". now rewrite append_empty_r.
  - now rewrite IH, concat_cons, append_assoc.
Qed.

(** X3.  [MosaicStr] returns the mask written once for each byte of the
    input, and nothing else: the concatenation of [len(inputStr)] copies
    of the mask, where ["*"] stands in for an empty mask.  Its length is
    the length of the input times the length of the mask used. *)
Theorem MosaicStr_repeats_mask (inputStr mosaicStrTmp : string) :
  let mask := if String.eqb mosaicStrTmp "" then "*" else mosaicStrTmp in
  MosaicStr inputStr mosaicStrTmp
    = String.concat "" (repeat mask (String.length inputStr))
  /\ String.length (MosaicStr inputStr mosaicStrTmp)
     = (String.length inputStr * String.length mask)%nat.
Proof.
  intros mask. split.
  - unfold MosaicStr. fold mask. now rewrite writeTimes_concat.
  - apply MosaicStr_length.
Qed.

Example MosaicStr_password : MosaicStr "secret" "" = "******".
Proof. reflexivity. Qed.


End Helpers.

(** ** Writing a ledger and reading it back *)

Section RoundTrips.

Lemma Split_no_separator (s : string) (sep : ascii) :
  Strings.inCutset sep s = false -> Strings.Split s sep = [s].
Proof.
  induction s as [|c s IH]; [reflexivity|].
  cbn [Strings.inCutset Strings.Split]. intros H.
  apply orb_false_iff in H as [Hc Hs].
  rewrite Ascii.eqb_sym, Hc, (IH Hs). reflexivity.
Qed.

Lemma Split_at_separator (a b : string) (sep : ascii) :
  Strings.inCutset sep a = false ->
  Strings.Split (a ++ String sep b) sep = a :: Strings.Split b sep.
Proof.
  induction a as [|c a IH]; intros H.
  - simpl. now rewrite Ascii.eqb_refl.
  - cbn [Strings.inCutset] in H. apply orb_false_iff in H as [Hc Ha].
    simpl. rewrite Ascii.eqb_sym, Hc, (IH Ha). reflexivity.
Qed.

(** X4.  A record in the form the downloaders write,
    [timestamp|storePath|url], is split by the replay into these three
    fields when none of them holds the separator: the destination and the
    URL read back are the ones written. *)
Theorem record_fields_round_trip (t storePath url : string) :
  Strings.inCutset "|" t = false ->
  Strings.inCutset "|" storePath = false ->
  Strings.inCutset "|" url = false ->
  Strings.Split (t ++ "|" ++ storePath ++ "|" ++ url) "|" = [t; storePath; url]
  /\ field (t ++ "|" ++ storePath ++ "|" ++ url) 1 = storePath
  /\ field (t ++ "|" ++ storePath ++ "|" ++ url) 2 = url.
Proof.
  intros Ht Hp Hu.
  assert (Hs : Strings.Split (t ++ "|" ++ storePath ++ "|" ++ url) "|"
               = [t; storePath; url]).
  { change ("|" ++ storePath ++ "|" ++ url) with (String "|" (storePath ++ String "|" url)).
    rewrite (Split_at_separator _ _ _ Ht), (Split_at_separator _ _ _ Hp).
    now rewrite (Split_no_separator _ _ Hu). }
  unfold field. rewrite Hs. repeat split.
Qed.

Lemma inCutset_In (c : ascii) (s : string) :
  Strings.inCutset c s = false -> ~ In c (list_ascii_of_string s).
Proof.
  induction s as [|d s IH]; cbn [Strings.inCutset list_ascii_of_string]; [easy|].
  intros H [Hd|Hin]; apply orb_false_iff in H as [Hc Hs].
  - subst. now rewrite Ascii.eqb_refl in Hc.
  - now apply IH.
Qed.

(** ReadLine on a line that fits the buffer. *)
Lemma readLinesFrom_line (size : nat) (s rest : string) :
  forall (rcur : list ascii) (n : nat),
    Strings.inCutset Bufio.LF s = false ->
    (n + String.length s < size)%nat ->
    Bufio.readLinesFrom size (s ++ String Bufio.LF rest) rcur n
    = Bufio.ofRev (Bufio.dropCR (rev (list_ascii_of_string s) ++ rcur))
      :: Bufio.readLinesFrom size rest [] 0.
Proof.
  induction s as [|c s IH]; intros rcur n Hlf Hlen.
  - reflexivity.
  - cbn [Strings.inCutset] in Hlf. apply orb_false_iff in Hlf as [Hc Hs].
    cbn [String.length] in Hlen.
    change (String c s ++ String Bufio.LF rest) with (String c (s ++ String Bufio.LF rest)).
    cbn [Bufio.readLinesFrom]. rewrite Ascii.eqb_sym, Hc.
    replace (S n =? size)%nat with false by (symmetry; apply Nat.eqb_neq; lia).
    rewrite (IH (c :: rcur) (S n) Hs) by lia.
    cbn [list_ascii_of_string rev]. now rewrite <- app_assoc.
Qed.

Lemma ReadLines_ledgerText (lines : list string) :
  Forall plainLine lines -> Bufio.ReadLines (ledgerText lines) = lines.
Proof.
  unfold Bufio.ReadLines. induction 1 as [|line rest (Hne & Hlen & Hcr & Hlf) _ IH];
    [reflexivity|].
  cbn [ledgerText]. change (nl ++ ledgerText rest) with (String Bufio.LF (ledgerText rest)).
  rewrite (readLinesFrom_line _ _ _ _ _ Hlf) by (cbn; exact Hlen).
  rewrite IH, app_nil_r. f_equal.
  assert (Hd : Bufio.dropCR (rev (list_ascii_of_string line))
               = rev (list_ascii_of_string line)).
  { destruct (rev (list_ascii_of_string line)) as [|c l] eqn:Hr; [reflexivity|].
    cbn [Bufio.dropCR]. destruct (Ascii.eqb_spec c Bufio.CR) as [->|_]; [|reflexivity].
    exfalso. apply (inCutset_In _ _ Hcr). apply in_rev. rewrite Hr. now left. }
  rewrite Hd. unfold Bufio.ofRev.
  now rewrite rev_involutive, string_of_list_ascii_of_string.
Qed.

Lemma plainLine_hasText (line : string) : plainLine line -> Lines.hasText line = true.
Proof.
  intros (Hne & _ & Hcr & Hlf). destruct line as [|c s]; [congruence|].
  cbn [Strings.inCutset] in Hcr, Hlf.
  apply orb_false_iff in Hcr as [Hcr _]. apply orb_false_iff in Hlf as [Hlf _].
  cbn [Lines.hasText]. unfold Lines.isText, crlf. cbn [Strings.inCutset].
  rewrite Ascii.eqb_sym, Hcr, Ascii.eqb_sym, Hlf. reflexivity.
Qed.

(** X5.  A ledger made of lines each ended by a line feed, as the appends
    of [NewFileDownloader] leave it, is read back by the two readers as
    exactly these lines, in order, when each line is not empty, holds no
    CR and no LF and is shorter than the 4096 bytes of the reader's
    buffer. *)
Theorem readResultLine_ledgerText (lines : list string) :
  Forall plainLine lines -> readResultLine (ledgerText lines) = lines.
Proof.
  intros Hall. unfold readResultLine. rewrite (ReadLines_ledgerText _ Hall).
  induction Hall as [|line rest Hline _ IH]; [reflexivity|].
  cbn [List.filter].
  rewrite LinesFacts.notBlank_hasText, (plainLine_hasText _ Hline). now rewrite IH.
Qed.

End RoundTrips.

(** ** The downloaders, case by case *)

Section MoreDownloaders.

Variable E : Env.

(** X6.  [DownloadFile] sends one request and never panics.  It returns
    nil exactly when the whole body arrived and the file could be made,
    and the destination then holds the body; when the copy breaks the
    bytes written stay at the destination; when the request fails or the
    file cannot be made no file changes. *)
Theorem DownloadFile_outcomes (storePath fileUrl : string) (w : World) :
  exists (err : error) (w' : World),
    DownloadFile E storePath fileUrl w = (Val err, w') /\
    requests w' = S (requests w) /\
    match http_get E (requests w) fileUrl, create_err E storePath with
    | DoFailed e, _ => err = Some e /\ fs w' = fs w
    | _, Some e => err = Some e /\ fs w' = fs w
    | Body body, None => err = None /\ fs w' = <[storePath := body]> (fs w)
    | Truncated written e, None =>
        err = Some e /\ fs w' = <[storePath := written]> (fs w)
    end.
Proof.
  unfold DownloadFile. unfold_monad.
  destruct (http_get E (requests w) fileUrl) as [e|body|written e];
    [|destruct (create_err E storePath)..]; cbv beta iota;
    eexists _, _; (split; [reflexivity|]); (split; [reflexivity|]);
    cbn [fs set_fs]; rewrite ?insert_insert_eq; split; reflexivity.
Qed.

(** X7.  [FileOrDirExists] only reads.  It reports a file that is there
    under a normalized path, and reports nothing in a directory that does
    not exist. *)
Theorem FileOrDirExists_reports (path : string) (w : World) :
  (forall content, fs w !! path = Some content -> NFC E path = path ->
     FileOrDirExists E path w = (Val true, w))
  /\ (dir_exists E w (filepath_Dir E (NFC E path)) = false ->
      FileOrDirExists E path w = (Val false, w)).
Proof.
  split.
  - intros content Hf Hn. unfold FileOrDirExists, os_ReadDir. unfold_monad.
    rewrite Hn, (dir_exists_of_file E _ _ _ Hf).
    f_equal. f_equal. apply existsb_exists.
    exists (filepath_Base E path). split; [|apply String.eqb_refl].
    apply in_map_iff. exists (path, content). split; [reflexivity|].
    apply filter_In. split; [|apply String.eqb_refl].
    apply list_elem_of_In, elem_of_map_to_list, Hf.
  - intros Hd. unfold FileOrDirExists, os_ReadDir. unfold_monad. now rewrite Hd.
Qed.

(** What a call of [NewFixFileDownloader] can do. *)
Lemma NewFixFileDownloader_cases (url storePath : string) (resultLines : list string)
    (w : World) :
  exists (lines' : list string) (w' : World),
    NewFixFileDownloader E url storePath resultLines w = (Val (lines', None), w') /\
    (lines' = [] \/ lines' = resultLines \/
     exists t, lines' = app resultLines [t ++ "|" ++ storePath ++ "|" ++ url]) /\
    (requests w <= requests w' <= S (requests w))%nat.
Proof.
  unfold NewFixFileDownloader.
  unfold bind at 1. destruct (FileOrDirExists_world E storePath w) as [b ->].
  unfold bind at 1.
  assert (Hm : (exists e, (if negb b then os_MkdirAll E (filepath_Dir E storePath)
                           else ret None) w = (Val (Some e), w)) \/
               (exists ds, (if negb b then os_MkdirAll E (filepath_Dir E storePath)
                            else ret None) w
                  = (Val None, mkWorld (fs w) ds (ticks w) (requests w) (out w)))).
  { destruct b; cbn [negb].
    - right. exists (dirs w). now destruct w.
    - apply os_MkdirAll_cases. }
  destruct Hm as [[e ->]|[ds ->]].
  { eexists _, _. split; [reflexivity|]. split; [now left|]. cbn. lia. }
  unfold fixFetch, DownloadFile; unfold_monad; cbn [fs requests].
  repeat (case_match; simplify_eq; cbn [fs requests snd set_fs emit]);
    eexists _, _; (split; [reflexivity|]);
    (split; [first [right; left; reflexivity | right; right; eexists; reflexivity]
            | cbn [requests set_fs emit]; lia]).
Qed.

(** X8.  [NewFixFileDownloader] never panics and never returns an error.
    It returns nil, the list it was given, or that list with one record
    for its destination and URL appended; it sends at most one request
    and writes no file other than its destination. *)
Theorem NewFixFileDownloader_total (url storePath : string)
    (resultLines : list string) (w : World) :
  exists (lines' : list string) (w' : World),
    NewFixFileDownloader E url storePath resultLines w = (Val (lines', None), w') /\
    (lines' = [] \/ lines' = resultLines \/
     exists t, lines' = app resultLines [t ++ "|" ++ storePath ++ "|" ++ url]) /\
    (requests w <= requests w' <= S (requests w))%nat /\
    (forall q, q <> storePath -> fs w' !! q = fs w !! q).
Proof.
  destruct (NewFixFileDownloader_cases url storePath resultLines w)
    as (lines' & w' & Hrun & Hshape & Hreq).
  exists lines', w'. repeat split; try assumption; try lia.
  intros q Hq.
  pose proof (NewFixFileDownloader_frame E url storePath resultLines w q Hq) as Hf.
  now rewrite Hrun in Hf.
Qed.

(** X9.  A download that delivers the provider's block page as its body
    is recorded as a failure: after a pause of ten seconds the record is
    appended, and the block page stays at the destination (where the next
    attempt finds and removes it). *)
Theorem NewFixFileDownloader_blocked (url storePath : string)
    (resultLines : list string) (w : World) :
  fs w !! storePath = None ->
  mkdir_err E (filepath_Dir E storePath) = None ->
  create_err E storePath = None ->
  http_get E (requests w) url = Body marker1015 ->
  exists w',
    NewFixFileDownloader E url storePath resultLines w
    = (Val (app resultLines [now E (ticks w) ++ "|" ++ storePath ++ "|" ++ url], None), w')
    /\ fs w' !! storePath = Some marker1015
    /\ In (Slept 10) (out w').
Proof.
  intros Hf Hmk Hcreate Hget. unfold NewFixFileDownloader.
  unfold bind at 1. destruct (FileOrDirExists_world E storePath w) as [b ->].
  unfold bind at 1.
  assert (Hm : exists ds, (if negb b then os_MkdirAll E (filepath_Dir E storePath)
                           else ret None) w
                 = (Val None, mkWorld (fs w) ds (ticks w) (requests w) (out w))).
  { destruct b; cbn [negb].
    - exists (dirs w). now destruct w.
    - destruct (os_MkdirAll_cases E (filepath_Dir E storePath) w) as [[e He]|Hd];
        [|exact Hd].
      unfold os_MkdirAll in He. rewrite Hmk in He.
      destruct (dir_exists E w _); discriminate. }
  destruct Hm as [ds ->].
  unfold fixFetch, DownloadFile. unfold_monad. cbn [fs requests]. rewrite Hf.
  cbn [requests]. rewrite Hget, Hcreate. cbv beta iota. cbn [fs set_fs].
  rewrite lookup_insert_eq, bool_decide_eq_true_2 by reflexivity.
  destruct (String.eqb (webhook_url E) ""); cbv beta iota;
    try destruct (webhook_err E _); cbv beta iota;
    eexists; (split; [reflexivity|]); cbn [fs out emit set_fs];
    (split; [now rewrite lookup_insert_eq|]); cbn; tauto.
Qed.

End MoreDownloaders.

(** ** The first pass and the copy *)

Ltac unfold_monad_in H :=
  cbv [bind ret modify panic get log_Info log_Error time_Sleep Send
       GetCurrentDateTime os_ReadFile os_Create write_file os_Remove
       FailedDownloadFile_Write FailedDownloadFile_Truncate0 client_Do] in H.

Section FirstPass.

Variable E : Env.

(** X10.  When the first download fails with an error that does not
    mention Content-Length, the closure of [NewFileDownloader] appends
    exactly one line [time|storePath|url] with a line feed to the ledger,
    after a single request, and (where removing is permitted) leaves no
    file at the destination. *)
Theorem NewFileDownloader_failure_recorded (url path filename : string) (w : World) :
  let storePath := filepath_Join E path filename in
  storePath <> FailedDownloadFileName ->
  match got_download E (requests w) url storePath with
  | DoFailed e | Truncated _ e => Strings.Contains e "Content-Length" = false
  | Body _ => False
  end ->
  exists w',
    NewFileDownloader E url path filename w = (Val None, w') /\
    requests w' = S (requests w) /\
    fs w' !! FailedDownloadFileName
      = (fun old => old ++ (now E (ticks w) ++ "|" ++ storePath ++ "|" ++ url ++ nl))
          <$> fs w !! FailedDownloadFileName /\
    (remove_err E storePath = None -> fs w' !! storePath = None).
Proof.
  intros storePath Hne Hgot. unfold NewFileDownloader, got_Download.
  fold storePath. unfold_monad.
  destruct (got_download E (requests w) url storePath) as [e|body|written e];
    [|contradiction|]; rewrite Hgot; cbv beta iota;
    destruct (String.eqb (webhook_url E) ""); cbv beta iota;
    try destruct (webhook_err E _); cbv beta iota;
    cbn [fs set_fs emit ticks requests];
    match goal with
    | |- context [match ?m !! storePath with _ => _ end] => destruct (m !! storePath) eqn:Hsp
    end;
    try destruct (remove_err E storePath) eqn:Hrm; cbv beta iota;
    eexists; (split; [reflexivity|]); (split; [reflexivity|]);
    cbn [fs set_fs emit];
    (split;
     [rewrite ?lookup_delete_ne by congruence;
      rewrite lookup_alter_eq, ?lookup_insert_ne by congruence; reflexivity
     |intros Hperm; try discriminate Hperm;
      rewrite ?lookup_delete_eq; try reflexivity; exact Hsp]).
Qed.

(** X11.  When the first download fails with a Content-Length error and
    the second try with [DownloadFile] is served, the closure returns nil
    without writing to the ledger: the destination holds the body of the
    second request. *)
Theorem NewFileDownloader_fallback_served (url path filename body e : string)
    (w : World) :
  let storePath := filepath_Join E path filename in
  storePath <> FailedDownloadFileName ->
  got_download E (requests w) url storePath = DoFailed e ->
  Strings.Contains e "Content-Length" = true ->
  http_get E (S (requests w)) url = Body body ->
  create_err E storePath = None ->
  exists w',
    NewFileDownloader E url path filename w = (Val None, w') /\
    fs w' !! storePath = Some body /\
    fs w' !! FailedDownloadFileName = fs w !! FailedDownloadFileName /\
    ticks w' = ticks w.
Proof.
  intros storePath Hne Hgot Hc Hget Hcreate.
  unfold NewFileDownloader, got_Download, DownloadFile.
  fold storePath. unfold_monad. rewrite Hgot. cbv beta iota. rewrite Hc.
  cbn [requests]. rewrite Hget, Hcreate. cbv beta iota.
  eexists. split; [reflexivity|]. cbn [fs set_fs emit ticks].
  rewrite lookup_insert_eq, !lookup_insert_ne by congruence. repeat split.
Qed.

(** [CopyFile] never panics. *)
Lemma CopyFile_total (src dst : string) (w : World) :
  exists (err : error) (w' : World),
    CopyFile E src dst w = (Val err, w') /\ requests w' = requests w.
Proof.
  unfold CopyFile. unfold_monad.
  destruct (fs w !! src); [|eauto].
  destruct (create_err E dst); [eauto|]. cbv beta iota.
  destruct (copy_fault E dst) as [[n e]|]; cbv beta iota; eauto.
Qed.

(** X12.  When [CopyFile] returns nil for a destination other than the
    source, the source was there, it is unchanged, the destination holds
    the same bytes and no other file has changed; and a source that is
    not there makes it fail without making any file. *)
Theorem CopyFile_copies (src dst : string) (w : World) :
  src <> dst ->
  (forall w', CopyFile E src dst w = (Val None, w') ->
     exists content,
       fs w !! src = Some content /\
       fs w' = <[dst := content]> (fs w) /\
       fs w' !! src = Some content)
  /\ (fs w !! src = None ->
      exists e, CopyFile E src dst w = (Val (Some e), w)).
Proof.
  intros Hne. split.
  - intros w' H. unfold CopyFile in H. unfold_monad_in H.
    destruct (fs w !! src) as [content|] eqn:Hsrc; [|discriminate].
    exists content. split; [reflexivity|].
    destruct (create_err E dst); [discriminate|]. cbv beta iota in H.
    destruct (copy_fault E dst) as [[n e]|]; cbv beta iota in H; [discriminate|].
    injection H as _ <-. cbn [fs set_fs]. rewrite insert_insert_eq.
    split; [reflexivity|]. now rewrite lookup_insert_ne by congruence.
  - intros Hsrc. unfold CopyFile. unfold_monad. rewrite Hsrc. eauto.
Qed.

End FirstPass.

(** ** The pass as a whole *)

Section WholePass.

Variable E : Env.

(** *** Files the steps leave alone *)










Lemma untouched_commit (q : string) :
  q <> FailedDownloadFileName -> q <> FailedDownloadFileName ++ ".tmp" ->
  untouched q (commit E).
Proof.
  intros Hl Ht w. unfold commit. unfold_monad.
  repeat (case_match; simplify_eq; cbn [fs snd set_fs emit]);
    rewrite ?lookup_alter_ne, ?lookup_delete_ne by congruence; reflexivity.
Qed.

(** *** Requests the steps send *)










Lemma within_commit : within 0 (commit E).
Proof.
  intros w. unfold commit. unfold_monad.
  repeat (case_match; simplify_eq; cbn [requests snd set_fs emit]); lia.
Qed.

(** *** Steps that do not panic *)









Lemma safe_commit : safe (commit E).
Proof.
  intros w. unfold commit. unfold_monad.
  repeat (case_match; simplify_eq); eauto.
Qed.

(** *** The pass, phase by phase *)

(** The pass ends at the snapshot, or replays the lines of the ledger as
    the snapshot holds them and commits. *)
Lemma FixBrokenDownloadFile_phases (maxRetry : Z) (w : World) :
  (exists e w1,
      fs w1 !! FailedDownloadFileName = fs w !! FailedDownloadFileName /\
      (forall q, q <> FailedDownloadFileName ++ ".tmp" -> fs w1 !! q = fs w !! q) /\
      requests w1 = requests w /\
      FixBrokenDownloadFile E maxRetry w
      = (Val CopyAborted,
         emit (LogError ("复制文件: " ++ FailedDownloadFileName ++ "失败: " ++ e) []) w1))
  \/
  (exists content w1,
      fs w !! FailedDownloadFileName = Some content /\
      (forall q, q <> FailedDownloadFileName ++ ".tmp" -> fs w1 !! q = fs w !! q) /\
      requests w1 = requests w /\
      FixBrokenDownloadFile E maxRetry w
      = (replay E maxRetry (readResultLine content) 0 ([], -1) ;;; commit E) w1).
Proof.
  destruct (CopyFile_total E FailedDownloadFileName (FailedDownloadFileName ++ ".tmp")
              (emit firstLog w)) as (err & w1 & Hcopy & Hreq).
  assert (Hframe : forall q, q <> FailedDownloadFileName ++ ".tmp" ->
                             fs w1 !! q = fs w !! q).
  { intros q Hq.
    pose proof (CopyFile_frame E FailedDownloadFileName (FailedDownloadFileName ++ ".tmp")
                  q (emit firstLog w) Hq) as Hf.
    now rewrite Hcopy in Hf. }
  unfold FixBrokenDownloadFile. erewrite bind_step by reflexivity.
  fold firstLog. rewrite (bind_step _ _ _ _ _ Hcopy).
  destruct err as [e|].
  - left. exists e, w1. split; [now apply Hframe|]. split; [exact Hframe|].
    split; [exact Hreq|reflexivity].
  - right. apply CopyFile_done in Hcopy as (content & Hsrc & Hdst).
    exists content, w1. split; [exact Hsrc|]. split; [exact Hframe|].
    split; [exact Hreq|].
    unfold os_ReadFile at 1. unfold bind at 1. rewrite Hdst. reflexivity.
Qed.

End WholePass.

Section PassProperties.

Variable E : Env.

Lemma commit_completed (w w' : World) :
  commit E w = (Val Completed, w') ->
  fs w' !! (FailedDownloadFileName ++ ".tmp") = None /\
  fs w' !! FailedDownloadFileName
    = (fun _ => EmptyString) <$> fs w !! FailedDownloadFileName.
Proof.
  unfold commit. unfold_monad. intros H.
  repeat (case_match; simplify_eq; cbn [fs snd set_fs emit]).
  split.
  - now rewrite lookup_alter_ne, lookup_delete_eq by discriminate.
  - now rewrite lookup_alter_eq, lookup_delete_ne by discriminate.
Qed.

(** X13.  After a pass that runs to its end the ledger is empty, the
    snapshot is gone, and [CheckIfNeedFixBrokenDownloadFile] then answers
    false. *)
Theorem FixBrokenDownloadFile_completed_state (maxRetry : Z) (w w' : World) :
  FixBrokenDownloadFile E maxRetry w = (Val Completed, w') ->
  fs w' !! FailedDownloadFileName = Some EmptyString /\
  fs w' !! (FailedDownloadFileName ++ ".tmp") = None /\
  CheckIfNeedFixBrokenDownloadFile w' = (Val false, w').
Proof.
  intros H.
  pose proof (FixBrokenDownloadFile_completed_empties_ledger E _ _ _ H) as Hl.
  split; [exact Hl|]. split.
  - destruct (FixBrokenDownloadFile_phases E maxRetry w)
      as [(e & w1 & _ & _ & _ & Hrun)|(content & w1 & _ & _ & _ & Hrun)];
      rewrite Hrun in H; [discriminate|].
    apply bind_Val in H as (st & w2 & _ & H).
    now apply commit_completed in H.
  - unfold CheckIfNeedFixBrokenDownloadFile. unfold_monad. now rewrite Hl.
Qed.

Lemma replay_nothing (maxRetry : Z) (resultLine : list string) (index : Z)
    (st : list string * Z) (w : World) :
  Z.to_nat maxRetry = 0%nat \/ resultLine = [] ->
  replay E maxRetry resultLine index st w = (Val st, w).
Proof.
  intros [Hz| ->]; [|reflexivity].
  revert index. induction resultLine as [|line rest IH]; intros index; [reflexivity|].
  cbn [replay]. rewrite Hz. cbn [retryLine].
  rewrite (bind_step _ _ w w st eq_refl). apply IH.
Qed.

Lemma readResultLine_blank (content : string) :
  Lines.hasText content = false -> readResultLine content = [].
Proof.
  intros Hb. pose proof (LinesFacts.readResultLine_nonempty content) as H.
  rewrite Hb in H. destruct (readResultLine content); [reflexivity|discriminate].
Qed.

(** X14.  With nothing to replay (a retry budget that is not positive, or
    a ledger holding only line ends) the pass does not panic, sends no
    request and changes no file other than the ledger and the snapshot. *)
Theorem FixBrokenDownloadFile_nothing_to_replay (maxRetry : Z) (w : World) :
  maxRetry <= 0 \/
  (forall content, fs w !! FailedDownloadFileName = Some content ->
                   Lines.hasText content = false) ->
  exists (r : pass_end) (w' : World),
    FixBrokenDownloadFile E maxRetry w = (Val r, w') /\
    requests w' = requests w /\
    (forall q, q <> FailedDownloadFileName -> q <> FailedDownloadFileName ++ ".tmp" ->
               fs w' !! q = fs w !! q).
Proof.
  intros Hnone.
  destruct (FixBrokenDownloadFile_phases E maxRetry w)
    as [(e & w1 & _ & Hframe & Hreq & Hrun)|(content & w1 & Hsrc & Hframe & Hreq & Hrun)];
    rewrite Hrun.
  - eexists _, _. split; [reflexivity|]. split; [exact Hreq|].
    intros q _ Hq. now apply Hframe.
  - assert (Hn : Z.to_nat maxRetry = 0%nat \/ readResultLine content = []).
    { destruct Hnone as [Hm|Hb]; [left; lia|right].
      now apply readResultLine_blank, Hb. }
    rewrite (bind_step _ _ _ _ _
               (replay_nothing maxRetry (readResultLine content) 0 ([], -1) w1 Hn)).
    destruct (safe_commit E w1) as (r & w' & Hc). rewrite Hc.
    exists r, w'. split; [reflexivity|].
    pose proof (within_commit E w1) as Hw. rewrite Hc in Hw. cbn [snd] in Hw.
    split; [lia|]. intros q Hl Ht.
    pose proof (untouched_commit E q Hl Ht w1) as Hu. rewrite Hc in Hu. cbn [snd] in Hu.
    rewrite Hu. now apply Hframe.
Qed.




End PassProperties.

(** ** A network that serves every request *)

Section Served.

Variable E : Env.

(** Every request is served with a body other than the block page, and
    directories and files can be made. *)
Hypothesis served :
  forall k url, exists body, http_get E k url = Body body /\ body <> marker1015.
Hypothesis can_create : forall path, create_err E path = None.
Hypothesis can_mkdir : forall dir, mkdir_err E dir = None.

Lemma NewFixFileDownloader_served (url storePath : string) (resultLines : list string)
    (w : World) :
  fs w !! storePath <> Some marker1015 ->
  exists w',
    NewFixFileDownloader E url storePath resultLines w = (Val (resultLines, None), w') /\
    fs w' !! storePath <> Some marker1015 /\
    (forall q, q <> storePath -> fs w' !! q = fs w !! q) /\
    (requests w <= requests w' <= S (requests w))%nat.
Proof.
  intros Hp.
  assert (Hres : resolvesAt E w url storePath).
  { unfold resolvesAt. destruct (fs w !! storePath) as [content|]; [congruence|].
    split; [apply can_mkdir|]. split; [apply can_create|apply served]. }
  destruct (NewFixFileDownloader_resolves E url storePath resultLines w Hres)
    as (w' & Hrun).
  exists w'. split; [exact Hrun|].
  destruct (NewFixFileDownloader_cases E url storePath resultLines w)
    as (lines' & w'' & Hrun' & _ & Hreq).
  rewrite Hrun in Hrun'. injection Hrun' as _ <-.
  split; [|split; [|exact Hreq]].
  - destruct (fs w !! storePath) as [content|] eqn:Hf.
    + rewrite (NewFixFileDownloader_skips E url storePath resultLines w content Hf)
        in Hrun by congruence.
      injection Hrun as <-. now rewrite Hf.
    + destruct (served (requests w) url) as (body & Hget & Hbody).
      revert Hrun. unfold NewFixFileDownloader.
      unfold bind at 1. destruct (FileOrDirExists_world E storePath w) as [b ->].
      unfold bind at 1.
      assert (Hm : exists ds, (if negb b then os_MkdirAll E (filepath_Dir E storePath)
                               else ret None) w
                     = (Val None, mkWorld (fs w) ds (ticks w) (requests w) (out w))).
      { destruct b; cbn [negb].
        - exists (dirs w). now destruct w.
        - destruct (os_MkdirAll_cases E (filepath_Dir E storePath) w) as [[e He]|Hd];
            [|exact Hd].
          unfold os_MkdirAll in He. rewrite can_mkdir in He.
          destruct (dir_exists E w _); discriminate. }
      destruct Hm as [ds ->].
      unfold fixFetch, DownloadFile. unfold_monad. cbn [fs requests]. rewrite Hf.
      cbn [requests]. rewrite Hget, can_create. cbv beta iota. cbn [fs set_fs].
      rewrite lookup_insert_eq.
      rewrite bool_decide_eq_false_2 by congruence.
      intros Hrun. injection Hrun as <-. cbn [fs set_fs emit].
      rewrite lookup_insert_eq. congruence.
  - intros q Hq.
    pose proof (NewFixFileDownloader_frame E url storePath resultLines w q Hq) as Hf.
    now rewrite Hrun in Hf.
Qed.

Lemma retryLine_served (maxRetry index lastSuccessIndex : Z) (brokenLine : string)
    (n : nat) (i : Z) (w : World) :
  (3 <= length (Strings.Split brokenLine "|"))%nat ->
  index <> lastSuccessIndex ->
  fs w !! field brokenLine 1 <> Some marker1015 ->
  exists w',
    retryLine E maxRetry index brokenLine (S n) i ([], lastSuccessIndex) w
    = (Val ([], index), w') /\
    fs w' !! field brokenLine 1 <> Some marker1015 /\
    (forall q, q <> field brokenLine 1 -> fs w' !! q = fs w !! q) /\
    (requests w <= requests w' <= S (requests w))%nat.
Proof.
  intros Hlen Hidx Hp. cbn [retryLine].
  apply Z.eqb_neq in Hidx. rewrite Hidx.
  erewrite bind_step by reflexivity.
  unfold index_. rewrite !field_lookup by lia.
  do 2 (erewrite bind_step by reflexivity).
  destruct (NewFixFileDownloader_served (field brokenLine 2) (field brokenLine 1) []
              (emit (LogInfo ("index: " ++ pretty index ++ ",line: " ++ brokenLine) []) w)
              Hp) as (w' & Hrun & Hp' & Hframe & Hreq).
  rewrite (bind_step _ _ _ _ _ Hrun). exists w'. repeat split; try assumption.
  - apply Hreq.
  - apply Hreq.
Qed.

Lemma replay_served (maxRetry : Z) :
  0 < maxRetry ->
  forall (resultLine : list string) (index lastSuccessIndex : Z) (w : World),
    lastSuccessIndex < index ->
    Forall (fun line => (3 <= length (Strings.Split line "|"))%nat /\
                        fs w !! field line 1 <> Some marker1015) resultLine ->
    exists last w',
      replay E maxRetry resultLine index ([], lastSuccessIndex) w = (Val ([], last), w') /\
      (requests w <= requests w' <= requests w + length resultLine)%nat.
Proof.
  intros Hpos. induction resultLine as [|line rest IH];
    intros index lastSuccessIndex w Hlast Hall.
  - exists lastSuccessIndex, w. split; [reflexivity|]. cbn [length]. lia.
  - apply Forall_cons in Hall as [(Hlen & Hp) Hrest].
    destruct (Z.to_nat maxRetry) as [|n] eqn:Hn; [lia|].
    destruct (retryLine_served maxRetry index lastSuccessIndex line n 0 w Hlen
                ltac:(lia) Hp) as (w1 & Hline & Hp1 & Hframe & Hreq).
    cbn [replay]. rewrite Hn, (bind_step _ _ _ _ _ Hline).
    destruct (IH (index + 1) index w1 ltac:(lia)) as (last & w' & Hrec & Hreq').
    { eapply Forall_impl; [exact Hrest|]. intros l (Hl1 & Hl2). split; [exact Hl1|].
      destruct (decide (field l 1 = field line 1)) as [->|Hne]; [exact Hp1|].
      now rewrite Hframe. }
    exists last, w'. split; [exact Hrec|]. cbn [length]. lia.
Qed.

(** X18.  When every request is served with a body other than the block
    page, files and directories can be made, every line has its three
    fields and no destination holds the block page, a replay with a
    positive retry budget gathers no record and sends at most one request
    for each line. *)
Theorem replay_all_served (maxRetry : Z) (resultLine : list string) (w : World) :
  0 < maxRetry ->
  Forall (fun line => (3 <= length (Strings.Split line "|"))%nat /\
                      fs w !! field line 1 <> Some marker1015) resultLine ->
  exists last w',
    replay E maxRetry resultLine 0 ([], -1) w = (Val ([], last), w') /\
    (requests w <= requests w' <= requests w + length resultLine)%nat.
Proof. intros Hpos Hall. now apply replay_served. Qed.

End Served.

Section Pending.

Variable E : Env.

Lemma hasText_append (a b : string) :
  Lines.hasText (a ++ b) = Lines.hasText a || Lines.hasText b.
Proof.
  induction a as [|c a IH]; [reflexivity|].
  simpl. now rewrite IH, orb_assoc.
Qed.

(** X19.  Once the closure of [NewFileDownloader] has recorded a failure
    in a ledger that is there, [CheckIfNeedFixBrokenDownloadFile] answers
    true. *)
Theorem failure_makes_ledger_pending (url path filename old : string) (w : World) :
  let storePath := filepath_Join E path filename in
  storePath <> FailedDownloadFileName ->
  fs w !! FailedDownloadFileName = Some old ->
  match got_download E (requests w) url storePath with
  | DoFailed e | Truncated _ e => Strings.Contains e "Content-Length" = false
  | Body _ => False
  end ->
  fst (CheckIfNeedFixBrokenDownloadFile
         (snd (NewFileDownloader E url path filename w))) = Val true.
Proof.
  intros storePath Hne Hold Hgot.
  assert (Hl : fs (snd (NewFileDownloader E url path filename w)) !! FailedDownloadFileName
               = Some (old ++ (now E (ticks w) ++ "|" ++ storePath ++ "|" ++ url ++ nl))).
  { revert Hgot. unfold NewFileDownloader, got_Download.
    fold storePath. unfold_monad.
    destruct (got_download E (requests w) url storePath) as [e|body|written e];
      [|contradiction|]; intros ->; cbv beta iota;
      destruct (String.eqb (webhook_url E) ""); cbv beta iota;
      try destruct (webhook_err E _); cbv beta iota;
      cbn [fs set_fs emit ticks requests];
      match goal with
      | |- context [match ?m !! storePath with _ => _ end] => destruct (m !! storePath)
      end;
      try destruct (remove_err E storePath); cbv beta iota;
      cbn [fs snd set_fs emit];
      rewrite ?lookup_delete_ne by congruence;
      rewrite lookup_alter_eq, ?lookup_insert_ne by congruence;
      now rewrite Hold. }
  unfold CheckIfNeedFixBrokenDownloadFile. unfold_monad. rewrite Hl. cbn [fst].
  rewrite LinesFacts.readResultLine_nonempty, !hasText_append.
  change (Lines.hasText "|") with true. now rewrite !orb_true_r.
Qed.

End Pending.

(** ** The properties above at concrete inputs *)

Lemma CalculateMaxPage_ceiling_witness :
  exists r : Z,
    CalculateMaxPage 10 3 = Val r /\ (r - 1) * 3 < 10 <= r * 3 /\
    (forall r', 10 <= r' * 3 -> r <= r').
Proof. apply (CalculateMaxPage_ceiling 10 3); lia. Defined.

Lemma CalculateMaxPage_panics_or_positive_witness :
  ((exists msg, CalculateMaxPage (-1) 3 = Panic msg) <-> -1 < 0 \/ 3 <= 0)
  /\ (forall r, CalculateMaxPage (-1) 3 = Val r -> 1 <= r)
  /\ (0 < 3 -> CalculateMaxPage 0 3 = Val 1).
Proof. apply (CalculateMaxPage_panics_or_positive (-1) 3); lia. Defined.

Lemma record_fields_round_trip_witness :
  Strings.Split ("T0" ++ "|" ++ "/out/a.mp3" ++ "|" ++ "http://x/a.mp3") "|"
    = ["T0"; "/out/a.mp3"; "http://x/a.mp3"]
  /\ field ("T0" ++ "|" ++ "/out/a.mp3" ++ "|" ++ "http://x/a.mp3") 1 = "/out/a.mp3"
  /\ field ("T0" ++ "|" ++ "/out/a.mp3" ++ "|" ++ "http://x/a.mp3") 2 = "http://x/a.mp3".
Proof.
  apply (record_fields_round_trip "T0" "/out/a.mp3" "http://x/a.mp3"); reflexivity.
Defined.

Lemma readResultLine_ledgerText_witness :
  Forall plainLine [lineA; lineB] /\
  readResultLine (ledgerText [lineA; lineB]) = [lineA; lineB].
Proof.
  assert (Hall : Forall plainLine [lineA; lineB]).
  { constructor; [|constructor; [|constructor]];
      (split; [discriminate|]; split; [vm_compute; lia|]; split; reflexivity). }
  split; [exact Hall|]. exact (readResultLine_ledgerText [lineA; lineB] Hall).
Defined.

Lemma FileOrDirExists_reports_witness :
  let w := mkWorld {[ "/out/a.mp3" := "AUDIO" ]} ∅ 0 0 [] in
  FileOrDirExists envDown "/out/a.mp3" w = (Val true, w).
Proof.
  apply (proj1 (FileOrDirExists_reports envDown "/out/a.mp3"
                  (mkWorld {[ "/out/a.mp3" := "AUDIO" ]} ∅ 0 0 [])) "AUDIO");
    reflexivity.
Defined.

Lemma NewFixFileDownloader_blocked_witness :
  exists w',
    NewFixFileDownloader envBlocked "http://x/a.mp3" "/out/a.mp3" ["earlier"] (world "")
    = (Val (app ["earlier"] [now envBlocked (ticks (world "")) ++ "|" ++ "/out/a.mp3"
                             ++ "|" ++ "http://x/a.mp3"], None), w')
    /\ fs w' !! "/out/a.mp3" = Some marker1015
    /\ In (Slept 10) (out w').
Proof.
  apply (NewFixFileDownloader_blocked envBlocked "http://x/a.mp3" "/out/a.mp3"
           ["earlier"] (world "")); reflexivity.
Defined.

Lemma NewFileDownloader_failure_recorded_witness :
  exists w',
    NewFileDownloader envDown "http://x/a.mp3" "/out" "a.mp3" (world "") = (Val None, w') /\
    requests w' = S (requests (world "")) /\
    fs w' !! FailedDownloadFileName
      = (fun old => old ++ (now envDown (ticks (world "")) ++ "|"
                            ++ filepath_Join envDown "/out" "a.mp3"
                            ++ "|" ++ "http://x/a.mp3" ++ nl))
          <$> fs (world "") !! FailedDownloadFileName /\
    (remove_err envDown (filepath_Join envDown "/out" "a.mp3") = None ->
     fs w' !! filepath_Join envDown "/out" "a.mp3" = None).
Proof.
  apply (NewFileDownloader_failure_recorded envDown "http://x/a.mp3" "/out" "a.mp3"
           (world "")).
  - discriminate.
  - reflexivity.
Defined.

Lemma NewFileDownloader_fallback_served_witness :
  exists w',
    NewFileDownloader envLength "http://x/a.mp3" "/out" "a.mp3" (world "") = (Val None, w') /\
    fs w' !! filepath_Join envLength "/out" "a.mp3" = Some "AUDIO" /\
    fs w' !! FailedDownloadFileName = fs (world "") !! FailedDownloadFileName /\
    ticks w' = ticks (world "").
Proof.
  apply (NewFileDownloader_fallback_served envLength "http://x/a.mp3" "/out" "a.mp3"
           "AUDIO" "Response status code is not ok: Content-Length" (world "")).
  - discriminate.
  - reflexivity.
  - reflexivity.
  - reflexivity.
  - reflexivity.
Defined.

Lemma CopyFile_copies_witness :
  let w := world lineA in
  let w' := snd (CopyFile envDown FailedDownloadFileName "copy.txt" w) in
  exists content,
    fs w !! FailedDownloadFileName = Some content /\
    fs w' = <[ "copy.txt" := content ]> (fs w) /\
    fs w' !! FailedDownloadFileName = Some content.
Proof.
  apply (proj1 (CopyFile_copies envDown FailedDownloadFileName "copy.txt" (world lineA)
                  ltac:(discriminate))).
  reflexivity.
Defined.

Lemma FixBrokenDownloadFile_completed_state_witness :
  let w' := snd (FixBrokenDownloadFile envUp 1 (world (lineA ++ nl))) in
  fs w' !! FailedDownloadFileName = Some EmptyString /\
  fs w' !! (FailedDownloadFileName ++ ".tmp") = None /\
  CheckIfNeedFixBrokenDownloadFile w' = (Val false, w').
Proof.
  apply (FixBrokenDownloadFile_completed_state envUp 1 (world (lineA ++ nl))).
  vm_compute. reflexivity.
Defined.

Lemma FixBrokenDownloadFile_nothing_to_replay_witness :
  exists (r : pass_end) (w' : World),
    FixBrokenDownloadFile envDown 0 (world (lineA ++ nl)) = (Val r, w') /\
    requests w' = requests (world (lineA ++ nl)) /\
    (forall q, q <> FailedDownloadFileName -> q <> FailedDownloadFileName ++ ".tmp" ->
               fs w' !! q = fs (world (lineA ++ nl)) !! q).
Proof.
  apply (FixBrokenDownloadFile_nothing_to_replay envDown 0 (world (lineA ++ nl))).
  left. lia.
Defined.





Lemma replay_all_served_witness :
  exists last w',
    replay envUp 3 [lineA; lineB] 0 ([], -1) (world "") = (Val ([], last), w') /\
    (requests (world "") <= requests w' <= requests (world "") + length [lineA; lineB])%nat.
Proof.
  apply (replay_all_served envUp).
  - intros k url. exists "AUDIO". split; [reflexivity|discriminate].
  - reflexivity.
  - reflexivity.
  - lia.
  - constructor; [|constructor; [|constructor]];
      (split; [vm_compute; lia|vm_compute; discriminate]).
Defined.

Lemma failure_makes_ledger_pending_witness :
  fst (CheckIfNeedFixBrokenDownloadFile
         (snd (NewFileDownloader envDown "http://x/a.mp3" "/out" "a.mp3" (world ""))))
  = Val true.
Proof.
  apply (failure_makes_ledger_pending envDown "http://x/a.mp3" "/out" "a.mp3" ""
           (world "")).
  - discriminate.
  - reflexivity.
  - reflexivity.
Defined.

Lemma NewFileDownloader_nil_and_recorded_witness :
  exists w',
    NewFileDownloader envHook "http://x/a.mp3" "/out" "a.mp3" (world "") = (Val None, w') /\
    In (LogError ("文件: " ++ "a.mp3" ++ "下载失败: " ++ "dial tcp: connection refused") [])
       (out w') /\
    (webhook_url envHook <> "" ->
     In (Notified ("文件: " ++ "/out/a.mp3" ++ "下载失败: " ++ "dial tcp: connection refused"))
        (out w')) /\
    ("/out/a.mp3" <> FailedDownloadFileName ->
     fs w' !! FailedDownloadFileName
     = (fun old => old ++ (now envHook (ticks (world "")) ++ "|" ++ "/out/a.mp3" ++ "|"
                           ++ "http://x/a.mp3" ++ nl))
         <$> fs (world "") !! FailedDownloadFileName).
Proof.
  exact (NewFileDownloader_nil_and_recorded envHook "http://x/a.mp3" "/out" "a.mp3"
           (world "")).
Defined.
